(** * Class factories for interval exchange transformations

    A shallow embedding of [sage/dynamics/interval_exchanges/constructors.py]:
    the normaliser [_two_lists], the two permutation factories [Permutation]
    and [GeneralizedPermutation], and [IntervalExchangeTransformation],
    followed by the properties of these functions.

    Python values are a small inductive type, exceptions are data, and a
    function that may raise returns a [result]. *)

From Stdlib Require Import List String Ascii ZArith Bool Arith Lia SpecFloat FinFun.
Import ListNotations.
Local Open Scope string_scope.
Local Open Scope list_scope.
Local Set Warnings "-register-all".

(** ** Python values *)

(** The values the factories receive as positional arguments and use as
    letters.  [PySeq] stands for a list or a tuple (the code tests both with
    one [isinstance]); [PyInt] is an integer, which has neither [__len__] nor
    an iterator; [PyPerm] is a one-line permutation of
    [sage.combinat.permutation].  Letters are hashable values: a [PySeq] that
    occurs as a letter stands for a tuple of hashable values. *)
Inductive pyval : Type :=
| PyStr (s : string)
| PyInt (z : Z)
| PyPerm (p : list Z)
| PySeq (l : list pyval).

Fixpoint pyval_eq_dec (a b : pyval) {struct a} : {a = b} + {a <> b}.
Proof.
  decide equality.
  - apply string_dec.
  - apply Z.eq_dec.
  - apply (list_eq_dec Z.eq_dec).
  - apply (list_eq_dec pyval_eq_dec).
Defined.

(** [x == y] on letters. *)
Definition py_eqb (a b : pyval) : bool :=
  if pyval_eq_dec a b then true else false.

(** ** Exceptions and results *)

Inductive exn : Type :=
| TypeError (msg : string)
| ValueError (msg : string)
| IndexError (msg : string).

(** The class of permutation template that a conversion hands its data to. *)
Inductive template_class : Type := PermutationIET | PermutationLI.

(** A call [PermutationIET(intervals, reduced=..., flips=..., alphabet=...)]
    (or [PermutationLI]) into [template.py].  A keyword that the call does not
    pass is [None]. *)
Record template_call : Type := mk_template_call {
  tc_class : template_class;
  tc_intervals : list pyval * list pyval;
  tc_reduced : bool;
  tc_flips : option (list pyval);
  tc_alphabet : option (option (list pyval))
}.

(** The outcome of a call: a returned value, a raised exception, or the
    value of a constructor call into [template.py], which this file does not
    define. *)
Inductive result (A : Type) : Type :=
| Return (a : A)
| Raise (e : exn)
| Template (c : template_call).

Arguments Return {A} a.
Arguments Raise {A} e.
Arguments Template {A} c.

Definition bind {A B : Type} (r : result A) (k : A -> result B) : result B :=
  match r with
  | Return a => k a
  | Raise e => Raise e
  | Template c => Template c
  end.

Notation "x <- r ;; k" := (bind r (fun x => k))
  (at level 61, r at next level, right associativity).
Notation "r ;;; k" := (bind r (fun _ => k))
  (at level 61, right associativity).

(** [for x in l: body(x)] where the body either raises or falls through. *)
Fixpoint for_each {A : Type} (l : list A) (body : A -> result unit) : result unit :=
  match l with
  | [] => Return tt
  | x :: r => body x ;;; for_each r body
  end.

(** ** Strings *)

Definition newline : ascii := Ascii.ascii_of_nat 10.

(** The characters [str.split()] treats as separators: space, tab, line feed,
    vertical tab, form feed and carriage return. *)
Definition is_space (c : ascii) : bool :=
  let n := Ascii.nat_of_ascii c in
  Nat.eqb n 32 || (Nat.leb 9 n && Nat.leb n 13).

(** [s.split(sep)] for a one-character separator: the pieces between the
    occurrences of [sep], empty pieces kept. *)
Fixpoint split_on (sep : ascii) (s : string) : list string :=
  match s with
  | EmptyString => [EmptyString]
  | String c r =>
      if Ascii.eqb c sep then EmptyString :: split_on sep r
      else match split_on sep r with
           | h :: t => String c h :: t
           | [] => [String c EmptyString]
           end
  end.

(** [s.split()]: the maximal runs of characters that are not white space. *)
Fixpoint split_ws (s : string) : list string :=
  match s with
  | EmptyString => []
  | String c r =>
      if is_space c then split_ws r
      else match r with
           | EmptyString => [String c EmptyString]
           | String d _ =>
               if is_space d then String c EmptyString :: split_ws r
               else match split_ws r with
                    | h :: t => String c h :: t
                    | [] => [String c EmptyString]
                    end
           end
  end.

(** The characters of a string, each as a string of length one. *)
Fixpoint chars (s : string) : list string :=
  match s with
  | EmptyString => []
  | String c r => String c EmptyString :: chars r
  end.

(** [list(x)] for a value that is not handled as a string by the caller. *)
Definition py_list (x : pyval) : result (list pyval) :=
  match x with
  | PyStr s => Return (map PyStr (chars s))
  | PyInt _ => Raise (TypeError "'int' object is not iterable")
  | PyPerm p => Return (map PyInt p)
  | PySeq l => Return l
  end.

(** ** The normaliser *)

(** [range(1, n+1)] as letters. *)
Definition range1 (n : nat) : list pyval :=
  map (fun i => PyInt (Z.of_nat i)) (seq 1 n).

(** One element of a pair: a string is split on white space, anything else
    is copied with [list]. *)
Definition row_of (x : pyval) : result (list pyval) :=
  match x with
  | PyStr s => Return (map PyStr (split_ws s))
  | _ => py_list x
  end.

(** [for i in range(2): res[i] = ...] on a sequence of length two. *)
Definition two_rows (a : list pyval) : result (list pyval * list pyval) :=
  match a with
  | [x; y] => r0 <- row_of x ;; r1 <- row_of y ;; Return (r0, r1)
  | _ => Raise (ValueError "your list must contain two objects")
  end.

Definition _two_lists (a : pyval) : result (list pyval * list pyval) :=
  match a with
  | PyStr s =>
      match split_on newline s with
      | [l0; l1] => Return (map PyStr (split_ws l0), map PyStr (split_ws l1))
      | _ => Raise (ValueError "your chain must contain two lines")
      end
  | PyPerm p => Return (range1 (List.length p), map PyInt p)
  | PyInt _ => Raise (TypeError "argument not accepted")
  | PySeq [] => Raise (ValueError "your argument can not be split in two parts")
  | PySeq [x] =>
      match x with
      | PyPerm p => Return (range1 (List.length p), map PyInt p)
      | PySeq l => two_rows l
      | _ => Raise (TypeError "argument not accepted")
      end
  | PySeq [x; y] => two_rows [x; y]
  | PySeq _ => Raise (ValueError "your argument can not be split in two parts")
  end.

(** ** Permutation objects *)

(** Modelled from the spec: the concrete classes of [labelled.py] and
    [reduced.py], which are not part of this file.  There is one class for
    each choice of labelled or reduced, flipped or not, and exchange (IET) or
    generalized (LI). *)
Inductive perm_class : Type :=
| LabelledPermutationIET
| ReducedPermutationIET
| FlippedLabelledPermutationIET
| FlippedReducedPermutationIET
| LabelledPermutationLI
| ReducedPermutationLI
| FlippedLabelledPermutationLI
| FlippedReducedPermutationLI.

Inductive reduction_tag : Type := Labelled | Reduced.
Inductive kind_tag : Type := Exchange | Generalized.

(** Modelled from the spec: every class derives either from
    [LabelledPermutation] or from [ReducedPermutation]. *)
Definition reduction_of (c : perm_class) : reduction_tag :=
  match c with
  | LabelledPermutationIET | FlippedLabelledPermutationIET
  | LabelledPermutationLI | FlippedLabelledPermutationLI => Labelled
  | ReducedPermutationIET | FlippedReducedPermutationIET
  | ReducedPermutationLI | FlippedReducedPermutationLI => Reduced
  end.

(** Modelled from the spec: [isinstance(p, FlippedPermutation)]. *)
Definition is_flipped (c : perm_class) : bool :=
  match c with
  | FlippedLabelledPermutationIET | FlippedReducedPermutationIET
  | FlippedLabelledPermutationLI | FlippedReducedPermutationLI => true
  | _ => false
  end.

(** Modelled from the spec: the kind of a class, exchange or generalized. *)
Definition kind_of (c : perm_class) : kind_tag :=
  match c with
  | LabelledPermutationIET | ReducedPermutationIET
  | FlippedLabelledPermutationIET | FlippedReducedPermutationIET => Exchange
  | _ => Generalized
  end.

(** Modelled from the spec: a permutation object is what its constructor was
    given, the pair of rows, the alphabet ([None] when it is left to be
    inferred) and the flipped letters.  Two objects are equal as values when
    these coincide. *)
Record permutation : Type := mk_permutation {
  p_class : perm_class;
  p_intervals : list pyval * list pyval;
  p_alphabet : option (list pyval);
  p_flips : list pyval
}.

(** A constructor call [cls(a, alphabet=alphabet, flips=flips)]. *)
Definition construct (c : perm_class) (a : list pyval * list pyval)
    (alphabet : option (list pyval)) (flips : list pyval) : result permutation :=
  Return (mk_permutation c a alphabet flips).

(** Modelled from the spec: [copy(p)] is a clone with the value of [p]. *)
Definition copy (p : permutation) : result permutation := Return p.

(** Modelled from the spec: [p.list()] is the pair of rows of [p]. *)
Definition list_method (p : permutation) : list pyval * list pyval :=
  p_intervals p.

(** Modelled from the spec: [p.reduced()] is the reduced counterpart of [p],
    on the same rows, alphabet and flips. *)
Definition reduced_method (p : permutation) : result permutation :=
  let c := match p_class p with
           | LabelledPermutationIET => ReducedPermutationIET
           | FlippedLabelledPermutationIET => FlippedReducedPermutationIET
           | LabelledPermutationLI => ReducedPermutationLI
           | FlippedLabelledPermutationLI => FlippedReducedPermutationLI
           | c => c
           end in
  Return (mk_permutation c (p_intervals p) (p_alphabet p) (p_flips p)).

(** ** Keyword arguments *)

(** The value of the keyword [reduced]: a boolean or something else. *)
Inductive kwvalue : Type :=
| KwBool (b : bool)
| KwOther (v : pyval).

(** [**kargs], restricted to the three keywords the factories read.  A
    keyword that is absent is [None]; for [alphabet] an absent keyword and the
    value [None] are read alike by the code and are not told apart here. *)
Record kwargs : Type := mk_kwargs {
  kw_reduced : option kwvalue;
  kw_flips : option pyval;
  kw_alphabet : option (list pyval)
}.

Definition no_options : kwargs := mk_kwargs None None None.

(** The three-way test on [kargs["reduced"]]; [default] is the value taken
    when the keyword is absent. *)
Definition get_reduced (default : option bool) (kargs : kwargs) : result (option bool) :=
  match kw_reduced kargs with
  | None => Return default
  | Some (KwBool b) => Return (Some b)
  | Some (KwOther _) => Raise (TypeError "reduced must be of type boolean")
  end.

Definition get_flips (kargs : kwargs) : result (list pyval) :=
  match kw_flips kargs with
  | None => Return []
  | Some v => py_list v
  end.

(** [if reduction:] where [reduction] is [None] or a boolean. *)
Definition truthy (reduction : option bool) : bool :=
  match reduction with
  | Some true => true
  | _ => false
  end.

(** [reduction in (None, b)]. *)
Definition in_none_or (b : bool) (reduction : option bool) : bool :=
  match reduction with
  | None => true
  | Some r => Bool.eqb r b
  end.

Definition is_nil {A : Type} (l : list A) : bool :=
  match l with
  | [] => true
  | _ => false
  end.

(** The positional arguments [*args]: a single existing permutation object,
    or values none of which is a permutation object. *)
Inductive arguments : Type :=
| ArgObject (p : permutation)
| ArgValues (l : list pyval).

(** [if len(args) == 1: args = args[0]], then what [_two_lists] receives. *)
Definition unwrap (l : list pyval) : pyval :=
  match l with
  | [x] => x
  | _ => PySeq l
  end.

(** ** The exchange factory *)

(** [l.count(x)]. *)
Definition count (l : list pyval) (x : pyval) : nat :=
  count_occ pyval_eq_dec l x.

(** [x in l]. *)
Definition is_in (x : pyval) (l : list pyval) : bool :=
  existsb (py_eqb x) l.

(** [set(l)], in some order of iteration. *)
Definition set_of (l : list pyval) : list pyval := nodup pyval_eq_dec l.

(** The conversion of an existing object, shared by the two factories up to
    the template class [t] they call. *)
Definition convert (t : template_class) (p : permutation)
    (reduction : option bool) (flips : list pyval)
    (alphabet : option (list pyval)) : result permutation :=
  match reduction_of (p_class p) with
  | Labelled =>
      if is_nil flips then
        if negb (truthy reduction) then copy p else reduced_method p
      else
        Template (mk_template_call t (list_method p)
                    (in_none_or false reduction) (Some flips) (Some alphabet))
  | Reduced =>
      if is_nil flips then
        if in_none_or true reduction then copy p
        else Template (mk_template_call t (list_method p) true None None)
      else
        Template (mk_template_call t (list_method p)
                    (in_none_or true reduction) (Some flips) (Some alphabet))
  end.

Definition check_flips (e : exn) (flips letters : list pyval) : result unit :=
  for_each flips (fun letter =>
    if negb (is_in letter letters) then Raise e else Return tt).

Definition check_once (a : list pyval * list pyval) (letters : list pyval) : result unit :=
  for_each letters (fun letter =>
    if negb (Nat.eqb (count (fst a) letter) 1) || negb (Nat.eqb (count (snd a) letter) 1)
    then Raise (ValueError "letters must appear once in each interval")
    else Return tt).

(** The final choice among four classes: [red] and [fred] are the reduced
    ones, plain and flipped, [lab] and [flab] the labelled ones. *)
Definition dispatch (red fred lab flab : perm_class) (reduction : option bool)
    (a : list pyval * list pyval) (alphabet : option (list pyval))
    (flips : list pyval) : result permutation :=
  if truthy reduction then
    if is_nil flips then construct red a alphabet []
    else construct fred a alphabet flips
  else
    if is_nil flips then construct lab a alphabet []
    else construct flab a alphabet flips.

Definition Permutation (args : arguments) (kargs : kwargs) : result permutation :=
  reduction <- get_reduced None kargs ;;
  flips <- get_flips kargs ;;
  let alphabet := kw_alphabet kargs in
  match args with
  | ArgObject p => convert PermutationIET p reduction flips alphabet
  | ArgValues args =>
      a <- _two_lists (unwrap args) ;;
      let l := fst a ++ snd a in
      let letters := set_of l in
      check_flips (ValueError "flips contains not valid letters") flips letters ;;;
      check_once a letters ;;;
      dispatch ReducedPermutationIET FlippedReducedPermutationIET
               LabelledPermutationIET FlippedLabelledPermutationIET
               reduction a alphabet flips
  end.

(** ** The generalized factory *)

(** [b.index(x)]. *)
Fixpoint index (x : pyval) (b : list pyval) : option nat :=
  match b with
  | [] => None
  | y :: r => if py_eqb y x then Some 0 else option_map S (index x r)
  end.

(** [del b[i]] for an index within the list. *)
Fixpoint del (i : nat) (b : list pyval) : list pyval :=
  match b, i with
  | [], _ => []
  | _ :: r, 0 => r
  | y :: r, S j => y :: del j r
  end.

(** [del b[b.index(x)]]; [index] raises when [x] does not occur. *)
Definition del_first (x : pyval) (b : list pyval) : result (list pyval) :=
  match index x b with
  | Some i => Return (del i b)
  | None => Raise (ValueError "list.index(x): x not in list")
  end.

(** One round of the loop that strips the letters occurring once in [b0]. *)
Definition strip_step (st : list pyval * list pyval) (letter : pyval)
  : result (list pyval * list pyval) :=
  if Nat.eqb (count (fst st) letter) 1 then
    b0 <- del_first letter (fst st) ;;
    b1 <- del_first letter (snd st) ;;
    Return (b0, b1)
  else Return st.

Fixpoint strip (letters : list pyval) (st : list pyval * list pyval)
  : result (list pyval * list pyval) :=
  match letters with
  | [] => Return st
  | letter :: r => st' <- strip_step st letter ;; strip r st'
  end.

Definition check_twice (l letters : list pyval) : result unit :=
  for_each letters (fun letter =>
    if negb (Nat.eqb (count l letter) 2)
    then Raise (ValueError "Letters must reappear twice")
    else Return tt).

(** The two rows as the argument of [Permutation(a, **kargs)]. *)
Definition rows_value (a : list pyval * list pyval) : pyval :=
  PySeq [PySeq (fst a); PySeq (snd a)].

Definition GeneralizedPermutation (args : arguments) (kargs : kwargs) : result permutation :=
  reduction <- get_reduced None kargs ;;
  flips <- get_flips kargs ;;
  let alphabet := kw_alphabet kargs in
  match args with
  | ArgObject p => convert PermutationLI p reduction flips alphabet
  | ArgValues args =>
      a <- _two_lists (unwrap args) ;;
      reduction <- get_reduced (Some false) kargs ;;
      flips <- get_flips kargs ;;
      let alphabet := kw_alphabet kargs in
      let l := fst a ++ snd a in
      let letters := set_of l in
      check_flips (TypeError "The flip list is not valid") flips letters ;;;
      check_twice l letters ;;;
      b <- strip letters a ;;
      if is_nil (fst b) && is_nil (snd b) then
        Permutation (ArgValues [rows_value a]) kargs
      else if is_nil (fst b) || is_nil (snd b) then
        Raise (ValueError "There is no admissible length")
      else
        dispatch ReducedPermutationLI FlippedReducedPermutationLI
                 LabelledPermutationLI FlippedLabelledPermutationLI
                 reduction a alphabet flips
  end.

Definition args2 (x y : string) : arguments := ArgValues [PyStr x; PyStr y].
Definition flips_of (l : list string) : option pyval := Some (PySeq (map PyStr l)).

(** ** Interval exchange transformations *)

(** What [float(x)] does on a candidate length. *)
Inductive float_result : Type :=
| FloatOf (y : spec_float)
| FloatRaises (e : exn).

(** A candidate length, known through [repr(x)] and [float(x)]. *)
Record length_value : Type := mk_length {
  lv_repr : string;
  lv_float : float_result
}.

(** The integer [0] of [[0] * len(p)]. *)
Definition int_zero : length_value := mk_length "0" (FloatOf (S754_zero false)).

(** The argument [lengths]: a dictionary, as its items in the order of
    iteration, or any other sequence. *)
Inductive lengths_arg : Type :=
| LengthsDict (d : list (pyval * length_value))
| LengthsSeq (l : list length_value).

(** The argument [permutation]: a permutation object or a value from which
    one is built. *)
Inductive perm_arg : Type :=
| PObject (p : permutation)
| PValue (v : pyval).

Record iet : Type := mk_iet {
  iet_permutation : permutation;
  iet_lengths : list length_value
}.

(** The letters of a list, each once, in the order in which they first
    occur. *)
Fixpoint distinct (l : list pyval) : list pyval :=
  match l with
  | [] => []
  | x :: r => x :: filter (fun y => negb (py_eqb y x)) (distinct r)
  end.

(** Modelled from the spec: [len(p)] is the number of letters of [p], the
    distinct letters of its two rows. *)
Definition len_method (p : permutation) : nat :=
  List.length (set_of (fst (p_intervals p) ++ snd (p_intervals p))).

(** Modelled from the spec: the alphabet of [p] is the one it was given or,
    when none was given, the distinct letters of its two rows in the order in
    which they first occur, which for an exchange permutation is its top
    row. *)
Definition alphabet_of (p : permutation) : list pyval :=
  match p_alphabet p with
  | Some al => al
  | None => distinct (fst (p_intervals p) ++ snd (p_intervals p))
  end.

(** Modelled from the spec: [alphabet.rank(letter)]; a letter outside the
    alphabet makes the lookup raise. *)
Definition rank (alphabet : list pyval) (letter : pyval) : result nat :=
  match index letter alphabet with
  | Some i => Return i
  | None => Raise (ValueError "letter not in alphabet")
  end.

(** [l[i] = v]. *)
Fixpoint set_item {A : Type} (l : list A) (i : nat) (v : A) : result (list A) :=
  match l, i with
  | [], _ => Raise (IndexError "list assignment index out of range")
  | _ :: r, 0 => Return (v :: r)
  | x :: r, S j => r' <- set_item r j v ;; Return (x :: r')
  end.

Fixpoint fill (alphabet : list pyval) (d : list (pyval * length_value))
    (l : list length_value) : result (list length_value) :=
  match d with
  | [] => Return l
  | (letter, v) :: r =>
      i <- rank alphabet letter ;;
      l' <- set_item l i v ;;
      fill alphabet r l'
  end.

Definition resolve_lengths (p : permutation) (lengths : lengths_arg)
  : result (list length_value) :=
  match lengths with
  | LengthsDict d => fill (alphabet_of p) d (repeat int_zero (len_method p))
  | LengthsSeq l => Return l
  end.

(** [y <= 0] on floats. *)
Definition nonpositive (y : spec_float) : bool := SFleb y (S754_zero false).

(** The loop over the entries: [float(x)] with its [ValueError] turned into a
    [TypeError], then the sign test. *)
Fixpoint check_lengths (l : list length_value) : result unit :=
  match l with
  | [] => Return tt
  | x :: r =>
      match lv_float x with
      | FloatRaises (ValueError _) =>
          Raise (TypeError ("unable to convert " ++ lv_repr x ++ " to a float")%string)
      | FloatRaises e => Raise e
      | FloatOf y =>
          if nonpositive y then Raise (ValueError "lengths must be positive")
          else check_lengths r
      end
  end.

Definition as_labelled (perm : perm_arg) : result permutation :=
  let rebuild args := Permutation args (mk_kwargs (Some (KwBool false)) None None) in
  match perm with
  | PObject p =>
      match p_class p with
      | LabelledPermutationIET => Return p
      | _ => rebuild (ArgObject p)
      end
  | PValue v => rebuild (ArgValues [v])
  end.

Definition flipped_arg (perm : perm_arg) : bool :=
  match perm with
  | PObject p => is_flipped (p_class p)
  | PValue _ => false
  end.

Definition IntervalExchangeTransformation (perm : perm_arg)
    (lengths : lengths_arg) : result iet :=
  if flipped_arg perm then Raise (TypeError "flips are not yet implemented")
  else
    p <- as_labelled perm ;;
    l <- resolve_lengths p lengths ;;
    if negb (Nat.eqb (List.length l) (len_method p))
    then Raise (ValueError "bad number of lengths")
    else check_lengths l ;;; Return (mk_iet p l).

(** Floats written as [m * 2^e] with a 53 bit mantissa. *)
Definition float_pos (e : Z) : spec_float := S754_finite false 4503599627370496 (e - 52).
Definition float_neg (e : Z) : spec_float := S754_finite true 4503599627370496 (e - 52).

Definition number (repr : string) (y : spec_float) : length_value :=
  mk_length repr (FloatOf y).
Definition bad_literal (repr : string) : length_value :=
  mk_length repr (FloatRaises (ValueError "could not convert string to float")).

Definition abc_cba : perm_arg := PValue (PySeq [PyStr "a b c"; PyStr "c b a"]).

(** * Notions used in the statements *)

(** ** Strings *)

Fixpoint occurrences (c : ascii) (s : string) : nat :=
  match s with
  | EmptyString => 0
  | String d r => (if Ascii.eqb d c then 1 else 0) + occurrences c r
  end.

(** [sep.join(pieces)]. *)
Fixpoint join (sep : ascii) (pieces : list string) : string :=
  match pieces with
  | [] => EmptyString
  | [p] => p
  | p :: r => (p ++ String sep (join sep r))%string
  end.

Fixpoint all_chars (f : ascii -> bool) (s : string) : bool :=
  match s with
  | EmptyString => true
  | String c r => f c && all_chars f r
  end.

(** A token: a non-empty string without white space. *)
Definition is_token (t : string) : bool :=
  negb (String.eqb t EmptyString) && all_chars (fun c => negb (is_space c)) t.

(** White space, character by character: space, tab, line feed, vertical
    tab, form feed and carriage return. *)
Definition white (c : ascii) : bool :=
  existsb (Ascii.eqb c) [" "; "009"; "010"; "011"; "012"; "013"]%char.

(** A string of white space only. *)
Definition blank (s : string) : bool := all_chars white s.

(** A non-empty string without white space. *)
Definition word (t : string) : bool :=
  negb (String.eqb t EmptyString) && all_chars (fun c => negb (white c)) t.

(** A string that is empty or begins with white space. *)
Definition starts_white (s : string) : bool :=
  match s with
  | EmptyString => true
  | String c _ => white c
  end.

(** [tokens_of s ts]: the string [s] is the words [ts], in this order, each
    preceded by white space (none is needed before the first), and followed
    by white space only after the last. *)
Inductive tokens_of : string -> list string -> Prop :=
| tokens_blank (s : string) :
    blank s = true -> tokens_of s []
| tokens_word (ws t rest : string) (ts : list string) :
    blank ws = true -> word t = true -> starts_white rest = true ->
    tokens_of rest ts ->
    tokens_of (ws ++ t ++ rest)%string (t :: ts).

Definition two_line_text : string := ("a1 a2" ++ String "010" "b1 b2")%string.

(** ** The choice of the class *)

(** The class that [dispatch] constructs. *)
Definition chosen (red fred lab flab : perm_class) (reduction : option bool)
    (flips : list pyval) : perm_class :=
  if truthy reduction then (if is_nil flips then red else fred)
  else (if is_nil flips then lab else flab).

(** ** Residual rows *)

(** [x] occurs exactly once in [row]. *)
Definition once_in (row : list pyval) (x : pyval) : bool := Nat.eqb (count row x) 1.

(** The residual rows in the words of the specification: the letters that
    occur exactly once in the top row are removed from both rows. *)
Definition residual (a : list pyval * list pyval) : list pyval * list pyval :=
  (filter (fun x => negb (once_in (fst a) x)) (fst a),
   filter (fun x => negb (once_in (fst a) x)) (snd a)).

(** What the loop has removed after the letters [ls], from a top row [b0]. *)
Definition kept (ls b0 : list pyval) (y : pyval) : bool :=
  negb (is_in y ls && once_in b0 y).

Definition other_than (x y : pyval) : bool := negb (py_eqb y x).

(** ** Sample inputs *)

Definition reduced_ab_ba : permutation :=
  mk_permutation ReducedPermutationIET ([PyStr "a"; PyStr "b"], [PyStr "b"; PyStr "a"]) None [].

Definition reduced_false : kwargs := mk_kwargs (Some (KwBool false)) None None.
Definition reduced_true : kwargs := mk_kwargs (Some (KwBool true)) None None.

(** ** Lengths *)

(** [0 < y] on floats. *)
Definition strictly_positive (y : spec_float) : bool := SFltb (S754_zero false) y.

(** An entry lets the loop go on. *)
Definition accepted (x : length_value) : bool :=
  match lv_float x with
  | FloatOf y => negb (nonpositive y)
  | FloatRaises _ => false
  end.

(** What the loop raises on an entry that is not accepted. *)
Definition rejection (x : length_value) : exn :=
  match lv_float x with
  | FloatRaises (ValueError _) =>
      TypeError ("unable to convert " ++ lv_repr x ++ " to a float")%string
  | FloatRaises e => e
  | FloatOf _ => ValueError "lengths must be positive"
  end.

(** ** Statements that the code does not meet *)

(** The first half of C1 as it is written: whatever the flips, a letter that
    is not once in each row is reported by the error on letters. *)
Definition once_violation_reported (args : list pyval) (kargs : kwargs) : Prop :=
  forall a,
    _two_lists (unwrap args) = Return a ->
    (exists x, In x (fst a ++ snd a) /\ ~ (count (fst a) x = 1 /\ count (snd a) x = 1)) ->
    Permutation (ArgValues args) kargs
    = Raise (ValueError "letters must appear once in each interval").

(** C2 as it is written: whatever the flips, a letter that is not twice in
    the concatenation of the rows is reported by the error on letters. *)
Definition twice_violation_reported (args : list pyval) (kargs : kwargs) : Prop :=
  forall a,
    _two_lists (unwrap args) = Return a ->
    (exists x, In x (fst a ++ snd a) /\ count (fst a ++ snd a) x <> 2) ->
    GeneralizedPermutation (ArgValues args) kargs
    = Raise (ValueError "Letters must reappear twice").

(** ** Tactics *)

(** Case analysis on a letter of explicit rows. *)
Ltac each_letter :=
  let x := fresh "x" in let H := fresh "H" in
  intros x H; cbn in H;
  repeat (destruct H as [<-|H]; [vm_compute; auto|]);
  try contradiction.

(** ** The iterator of permutations *)

(** Modelled from the spec: an alphabet is a sequence of letters without
    repetition, or an infinite set; the cardinality of a finite alphabet is
    the number of its letters. *)
Inductive alphabet_arg : Type :=
| FiniteAlphabet (letters : list pyval)
| InfiniteAlphabet.

(** The two enumeration engines of [reduced.py] and [labelled.py]. *)
Inductive engine : Type :=
| ReducedPermutationsIET_iterator
| LabelledPermutationsIET_iterator.

(** A call [engine(nintervals, irreducible=..., alphabet=...)]. *)
Record iterator : Type := mk_iterator {
  it_engine : engine;
  it_nintervals : Z;
  it_irreducible : bool;
  it_alphabet : alphabet_arg
}.

(** [range(1, n+1)] for an integer [n]: empty when [n] is not positive. *)
Definition range1Z (n : Z) : list pyval := range1 (Z.to_nat n).

Definition Permutations_iterator (nintervals : option Z) (irreducible reduced : bool)
    (alphabet : option alphabet_arg) : result iterator :=
  na <- match nintervals with
        | None =>
            match alphabet with
            | None => Raise (ValueError "You must specify an alphabet or a length")
            | Some InfiniteAlphabet =>
                Raise (ValueError "You must specify a length with infinite alphabet")
            | Some (FiniteAlphabet letters) =>
                Return (Z.of_nat (List.length letters), FiniteAlphabet letters)
            end
        | Some n =>
            match alphabet with
            | None => Return (n, FiniteAlphabet (range1Z n))
            | Some al => Return (n, al)
            end
        end ;;
  if reduced
  then Return (mk_iterator ReducedPermutationsIET_iterator (fst na) irreducible (snd na))
  else Return (mk_iterator LabelledPermutationsIET_iterator (fst na) irreducible (snd na)).

(** ** Rauzy diagrams *)

(** The five keywords of [RauzyDiagram] that are handed to
    [p.rauzy_diagram]; an absent keyword is [None]. *)
Record diagram_kwargs : Type := mk_diagram_kwargs {
  kw_right_induction : option bool;
  kw_left_induction : option bool;
  kw_left_right_inversion : option bool;
  kw_top_bottom_inversion : option bool;
  kw_symmetric : option bool
}.

(** Modelled from the spec: the diagram requested from [p.rauzy_diagram],
    known by the permutation and the five options it was asked with. *)
Record rauzy_diagram : Type := mk_rauzy_diagram {
  rd_permutation : permutation;
  rd_right_induction : bool;
  rd_left_induction : bool;
  rd_left_right_inversion : bool;
  rd_top_bottom_inversion : bool;
  rd_symmetric : bool
}.

(** [if key not in kargs: kargs[key] = d]. *)
Definition setdefault {A : Type} (d : A) (v : option A) : A :=
  match v with
  | Some a => a
  | None => d
  end.

(** The keywords [reduced], [flips] and [alphabet] after their defaults are
    filled in. *)
Definition with_defaults (kargs : kwargs) : kwargs :=
  mk_kwargs (Some (setdefault (KwBool false) (kw_reduced kargs)))
            (Some (setdefault (PySeq []) (kw_flips kargs)))
            (kw_alphabet kargs).

(** [RauzyDiagram]; the tuple [args] of its positional arguments is handed
    to [GeneralizedPermutation] as a single positional argument. *)
Definition RauzyDiagram (args : list pyval) (kargs : kwargs) (opts : diagram_kwargs)
  : result rauzy_diagram :=
  p <- GeneralizedPermutation (ArgValues [PySeq args]) (with_defaults kargs) ;;
  Return (mk_rauzy_diagram p
            (setdefault true (kw_right_induction opts))
            (setdefault false (kw_left_induction opts))
            (setdefault false (kw_left_right_inversion opts))
            (setdefault false (kw_top_bottom_inversion opts))
            (setdefault false (kw_symmetric opts))).

(** ** Further notions used in the statements *)

(** A one-line permutation of [1..n]. *)
Definition one_line (p : list Z) : Prop :=
  NoDup p /\ forall z, In z p <-> (1 <= z <= Z.of_nat (List.length p))%Z.

(** [d[letter]] on the items of a dictionary. *)
Fixpoint dict_get (d : list (pyval * length_value)) (letter : pyval) : option length_value :=
  match d with
  | [] => None
  | (k, v) :: r => if py_eqb k letter then Some v else dict_get r letter
  end.

(** The lengths of a dictionary laid out along an alphabet, zero where the
    dictionary has no entry. *)
Definition laid_out (alphabet : list pyval) (d : list (pyval * length_value))
  : list length_value :=
  map (fun letter => setdefault int_zero (dict_get d letter)) alphabet.

(** The text of two rows of tokens: the tokens of each row joined by spaces,
    the two rows separated by a line feed. *)
Definition rows_text (r0 r1 : list string) : string :=
  (join " " r0 ++ String newline (join " " r1))%string.

(** The exceptions that the normaliser raises. *)
Definition two_lists_errors : list exn :=
  [ValueError "your chain must contain two lines";
   TypeError "argument not accepted";
   ValueError "your argument can not be split in two parts";
   ValueError "your list must contain two objects";
   TypeError "'int' object is not iterable"].

(** The exceptions that reading the keywords raises. *)
Definition option_errors : list exn :=
  [TypeError "reduced must be of type boolean";
   TypeError "'int' object is not iterable"].

Definition Permutation_errors : list exn :=
  option_errors ++ two_lists_errors ++
  [ValueError "flips contains not valid letters";
   ValueError "letters must appear once in each interval"].

Definition GeneralizedPermutation_errors : list exn :=
  Permutation_errors ++
  [TypeError "The flip list is not valid";
   ValueError "Letters must reappear twice";
   ValueError "There is no admissible length"].

(** A letter that is a string or an integer. *)
Definition atom (x : pyval) : bool :=
  match x with
  | PyStr _ | PyInt _ => true
  | _ => false
  end.

(** The letters of the rows and the flips are strings or integers, whenever
    the rows are normalised and the flips are read. *)
Definition atomic_input (args : list pyval) (kargs : kwargs) : Prop :=
  (forall flips, get_flips kargs = Return flips -> forallb atom flips = true)
  /\ (forall a, _two_lists (unwrap args) = Return a ->
                forallb atom (fst a ++ snd a) = true).

(** * Properties *)

(** ** The examples of the docstrings *)

Example two_lists_pair :
  _two_lists (PySeq [PyStr "a1 a2"; PyStr "b1 b2"])
  = Return ([PyStr "a1"; PyStr "a2"], [PyStr "b1"; PyStr "b2"]).
Proof. reflexivity. Qed.

Example two_lists_uneven :
  _two_lists (PySeq [PyStr "a b"; PyStr "c"])
  = Return ([PyStr "a"; PyStr "b"], [PyStr "c"]).
Proof. reflexivity. Qed.

Example two_lists_scalar :
  _two_lists (PyInt 1) = Raise (TypeError "argument not accepted").
Proof. reflexivity. Qed.

Example two_lists_three :
  _two_lists (PySeq [PyInt 1; PyInt 2; PyInt 3])
  = Raise (ValueError "your argument can not be split in two parts").
Proof. reflexivity. Qed.

Example permutation_abc :
  Permutation (args2 "a b c" "c b a") no_options
  = Return (mk_permutation LabelledPermutationIET
              ([PyStr "a"; PyStr "b"; PyStr "c"], [PyStr "c"; PyStr "b"; PyStr "a"])
              None []).
Proof. reflexivity. Qed.

Example permutation_caa :
  Permutation (args2 "a b c" "c a a") (mk_kwargs (Some (KwBool true)) None None)
  = Raise (ValueError "letters must appear once in each interval").
Proof. reflexivity. Qed.

Example permutation_badly :
  Permutation (args2 "a b c" "c b a") (mk_kwargs (Some (KwOther (PyStr "badly"))) None None)
  = Raise (TypeError "reduced must be of type boolean").
Proof. reflexivity. Qed.

Example permutation_flip_b :
  Permutation (args2 "a" "a") (mk_kwargs (Some (KwBool true)) (Some (PyStr "b")) None)
  = Raise (ValueError "flips contains not valid letters").
Proof. reflexivity. Qed.

Example generalized_abb :
  GeneralizedPermutation (args2 "a b b" "c c a") no_options
  = Return (mk_permutation LabelledPermutationLI
              ([PyStr "a"; PyStr "b"; PyStr "b"], [PyStr "c"; PyStr "c"; PyStr "a"])
              None []).
Proof. reflexivity. Qed.

Example generalized_twice :
  GeneralizedPermutation (args2 "a b c a" "d c c b")
    (mk_kwargs None (flips_of ["a"; "b"]) None)
  = Raise (ValueError "Letters must reappear twice").
Proof. reflexivity. Qed.

Example generalized_flip_e :
  GeneralizedPermutation (args2 "a b c a" "d c d b")
    (mk_kwargs None (flips_of ["e"; "b"]) None)
  = Raise (TypeError "The flip list is not valid").
Proof. reflexivity. Qed.

Example generalized_flipped :
  GeneralizedPermutation (args2 "a b c a" "d c d b")
    (mk_kwargs None (flips_of ["a"; "b"]) None)
  = Return (mk_permutation FlippedLabelledPermutationLI
              ([PyStr "a"; PyStr "b"; PyStr "c"; PyStr "a"],
               [PyStr "d"; PyStr "c"; PyStr "d"; PyStr "b"])
              None [PyStr "a"; PyStr "b"]).
Proof. reflexivity. Qed.

Example iet_bad_number :
  IntervalExchangeTransformation abc_cba
    (LengthsSeq [number "0.125" (float_pos (-3)); number "2" (float_pos 1)])
  = Raise (ValueError "bad number of lengths").
Proof. reflexivity. Qed.

Example iet_rho :
  IntervalExchangeTransformation abc_cba
    (LengthsSeq [number "0.5" (float_pos (-1)); bad_literal "'rho'"; number "2" (float_pos 1)])
  = Raise (TypeError "unable to convert 'rho' to a float").
Proof. reflexivity. Qed.

Example iet_negative :
  IntervalExchangeTransformation abc_cba
    (LengthsSeq [number "0.5" (float_pos (-1)); number "-2" (float_neg 1); number "2" (float_pos 1)])
  = Raise (ValueError "lengths must be positive").
Proof. reflexivity. Qed.

Example iet_dict :
  IntervalExchangeTransformation (PValue (PySeq [PyStr "a b"; PyStr "b a"]))
    (LengthsDict [(PyStr "b", number "4" (float_pos 2)); (PyStr "a", number "1" (float_pos 0))])
  = Return (mk_iet
      (mk_permutation LabelledPermutationIET ([PyStr "a"; PyStr "b"], [PyStr "b"; PyStr "a"]) None [])
      [number "1" (float_pos 0); number "4" (float_pos 2)]).
Proof. reflexivity. Qed.

(** ** Splitting strings *)

Lemma split_on_not_nil (sep : ascii) (s : string) : split_on sep s <> [].
Proof.
  destruct s as [|c r]; simpl; [discriminate|].
  destruct (Ascii.eqb c sep); [discriminate|].
  destruct (split_on sep r); discriminate.
Qed.

Lemma split_on_length (sep : ascii) (s : string) :
  List.length (split_on sep s) = S (occurrences sep s).
Proof.
  induction s as [|c r IH]; simpl; [reflexivity|].
  destruct (Ascii.eqb c sep); simpl.
  - now rewrite IH.
  - destruct (split_on sep r) eqn:E; simpl in *; [discriminate|exact IH].
Qed.

Lemma split_on_none (sep : ascii) (s : string) :
  occurrences sep s = 0 -> split_on sep s = [s].
Proof.
  induction s as [|c r IH]; simpl; [reflexivity|].
  destruct (Ascii.eqb c sep); simpl; [discriminate|].
  intros H. now rewrite (IH H).
Qed.

Lemma split_on_app (sep : ascii) (l0 l1 : string) :
  occurrences sep l0 = 0 ->
  split_on sep (l0 ++ String sep l1)%string = l0 :: split_on sep l1.
Proof.
  induction l0 as [|c r IH]; simpl.
  - intros _. now rewrite Ascii.eqb_refl.
  - destruct (Ascii.eqb c sep); simpl; [discriminate|].
    intros H. now rewrite (IH H).
Qed.

Lemma join_split_on (sep : ascii) (s : string) : join sep (split_on sep s) = s.
Proof.
  induction s as [|c r IH]; simpl; [reflexivity|].
  destruct (Ascii.eqb c sep) eqn:E.
  - apply Ascii.eqb_eq in E. subst c.
    destruct (split_on sep r) eqn:F; [now destruct (split_on_not_nil sep r)|].
    simpl in *. now rewrite IH.
  - destruct (split_on sep r) as [|h t] eqn:F; [now destruct (split_on_not_nil sep r)|].
    destruct t; simpl in *; now rewrite <- IH.
Qed.

(** A string with exactly one separator is cut into the parts before and
    after it. *)
Lemma split_on_one (sep : ascii) (s : string) :
  occurrences sep s = 1 ->
  exists l0 l1, s = (l0 ++ String sep l1)%string
    /\ occurrences sep l0 = 0 /\ occurrences sep l1 = 0
    /\ split_on sep s = [l0; l1].
Proof.
  induction s as [|c r IH]; simpl; [discriminate|].
  destruct (Ascii.eqb c sep) eqn:E; simpl; intros H.
  - apply Ascii.eqb_eq in E. subst c.
    exists EmptyString, r. injection H as H.
    repeat split; auto. now rewrite (split_on_none _ _ H).
  - destruct (IH H) as (l0 & l1 & -> & H0 & H1 & Hs).
    exists (String c l0), l1. simpl. rewrite E, Hs. simpl. auto.
Qed.

Lemma split_ws_tokens (s : string) :
  forallb is_token (split_ws s) = true.
Proof.
  induction s as [|c r IH]; [reflexivity|].
  cbn [split_ws]. destruct (is_space c) eqn:Ec; [exact IH|].
  destruct r as [|d r']; [cbn; unfold is_token; cbn; now rewrite Ec|].
  destruct (is_space d) eqn:Ed.
  - cbn [forallb]. rewrite IH. unfold is_token. cbn. now rewrite Ec.
  - destruct (split_ws (String d r')) as [|h t] eqn:F.
    + cbn. unfold is_token. cbn. now rewrite Ec.
    + cbn [forallb] in *. apply andb_true_iff in IH. destruct IH as [Hh Ht].
      rewrite Ht, andb_true_r. unfold is_token in *. cbn.
      rewrite Ec. cbn. apply andb_true_iff in Hh. tauto.
Qed.

Lemma split_ws_cons (a : ascii) (s : string) :
  is_space a = false ->
  split_ws (String a s) =
  match s with
  | EmptyString => [String a EmptyString]
  | String d _ =>
      if is_space d then String a EmptyString :: split_ws s
      else match split_ws s with
           | h :: t => String a h :: t
           | [] => [String a EmptyString]
           end
  end.
Proof. intros H. cbn [split_ws]. now rewrite H. Qed.

Lemma split_ws_space (c : ascii) (s : string) :
  is_space c = true -> split_ws (String c s) = split_ws s.
Proof. intros H. cbn [split_ws]. now rewrite H. Qed.

(** A token followed by white space is split off. *)
Lemma split_ws_token_space (t : string) (c : ascii) (s : string) :
  is_token t = true -> is_space c = true ->
  split_ws (t ++ String c s)%string = t :: split_ws s.
Proof.
  unfold is_token. intros Ht Hc. apply andb_true_iff in Ht. destruct Ht as [Hne Hall].
  destruct t as [|a t]; [discriminate|]. clear Hne.
  revert a Hall. induction t as [|b t IH]; intros a Hall;
    cbn [all_chars] in Hall; apply andb_true_iff in Hall; destruct Hall as [Ha Hall];
    apply negb_true_iff in Ha; cbn [append]; rewrite (split_ws_cons a _ Ha).
  - rewrite Hc. now rewrite split_ws_space.
  - assert (Hb : is_space b = false).
    { cbn in Hall. apply andb_true_iff in Hall. now apply negb_true_iff. }
    rewrite Hb. specialize (IH b Hall). cbn [append] in IH. now rewrite IH.
Qed.

Lemma split_ws_token (t : string) : is_token t = true -> split_ws t = [t].
Proof.
  unfold is_token. intros Ht. apply andb_true_iff in Ht. destruct Ht as [Hne Hall].
  induction t as [|a t IH]; [discriminate|].
  cbn [all_chars] in Hall. apply andb_true_iff in Hall. destruct Hall as [Ha Hall].
  apply negb_true_iff in Ha.
  cbn [split_ws]. rewrite Ha.
  destruct t as [|b t']; [reflexivity|].
  assert (Hb : is_space b = false).
  { cbn in Hall. apply andb_true_iff in Hall. now apply negb_true_iff. }
  rewrite Hb. now rewrite (IH eq_refl Hall).
Qed.

(** Tokens joined by single spaces are recovered by [split_ws]. *)
Lemma split_ws_join (ts : list string) :
  forallb is_token ts = true -> split_ws (join " " ts) = ts.
Proof.
  induction ts as [|t r IH]; [reflexivity|].
  cbn [forallb]. intros H. apply andb_true_iff in H. destruct H as [Ht Hr].
  destruct r as [|u r'].
  - now apply split_ws_token.
  - change (join " " (t :: u :: r')) with (t ++ String " " (join " " (u :: r')))%string.
    rewrite (split_ws_token_space t " " _ Ht eq_refl). now rewrite (IH Hr).
Qed.

(** ** Loops that validate *)

Lemma for_each_guard {A : Type} (bad : A -> bool) (e : exn) (l : list A) :
  for_each l (fun x => if bad x then Raise e else Return tt)
  = if existsb bad l then Raise e else Return tt.
Proof.
  induction l as [|x r IH]; simpl; [reflexivity|].
  destruct (bad x); simpl; [reflexivity|exact IH].
Qed.

Lemma for_each_clean {A : Type} (bad : A -> bool) (e : exn) (l : list A) :
  (forall x, In x l -> bad x = false) ->
  for_each l (fun x => if bad x then Raise e else Return tt) = Return tt.
Proof.
  intros H. rewrite for_each_guard.
  destruct (existsb bad l) eqn:E; [|reflexivity].
  apply existsb_exists in E. destruct E as (x & Hx & Hb).
  rewrite (H x Hx) in Hb. discriminate.
Qed.

Lemma for_each_dirty {A : Type} (bad : A -> bool) (e : exn) (l : list A) (x : A) :
  In x l -> bad x = true ->
  for_each l (fun x => if bad x then Raise e else Return tt) = Raise e.
Proof.
  intros Hx Hb. rewrite for_each_guard.
  assert (E : existsb bad l = true) by (apply existsb_exists; eauto).
  now rewrite E.
Qed.

Lemma py_eqb_eq (x y : pyval) : py_eqb x y = true <-> x = y.
Proof. unfold py_eqb. destruct (pyval_eq_dec x y); split; congruence. Qed.

Lemma py_eqb_refl (x : pyval) : py_eqb x x = true.
Proof. now apply py_eqb_eq. Qed.

Lemma py_eqb_neq (x y : pyval) : py_eqb x y = false <-> x <> y.
Proof. unfold py_eqb. destruct (pyval_eq_dec x y); split; congruence. Qed.

Lemma is_in_In (x : pyval) (l : list pyval) : is_in x l = true <-> In x l.
Proof.
  unfold is_in. rewrite existsb_exists. split.
  - intros (y & Hy & E). apply py_eqb_eq in E. now subst.
  - intros H. exists x. split; [exact H|apply py_eqb_refl].
Qed.

Lemma is_in_not_In (x : pyval) (l : list pyval) : is_in x l = false <-> ~ In x l.
Proof.
  rewrite <- is_in_In. destruct (is_in x l); split; congruence.
Qed.

Lemma set_of_In (x : pyval) (l : list pyval) : In x (set_of l) <-> In x l.
Proof. apply nodup_In. Qed.

Lemma count_app (l m : list pyval) (x : pyval) :
  count (l ++ m) x = count l x + count m x.
Proof. apply count_occ_app. Qed.

Lemma check_flips_ok (e : exn) (flips l : list pyval) :
  (forall x, In x flips -> In x l) -> check_flips e flips (set_of l) = Return tt.
Proof.
  intros H. unfold check_flips. apply for_each_clean.
  intros x Hx. apply negb_false_iff, is_in_In, set_of_In. auto.
Qed.

Lemma check_flips_bad (e : exn) (flips l : list pyval) (x : pyval) :
  In x flips -> ~ In x l -> check_flips e flips (set_of l) = Raise e.
Proof.
  intros Hx Hn. unfold check_flips.
  apply (for_each_dirty (fun y => negb (is_in y (set_of l))) e flips x Hx).
  apply negb_true_iff, is_in_not_In. now rewrite set_of_In.
Qed.

Lemma check_once_ok (a : list pyval * list pyval) (l : list pyval) :
  (forall x, In x l -> count (fst a) x = 1 /\ count (snd a) x = 1) ->
  check_once a (set_of l) = Return tt.
Proof.
  intros H. unfold check_once. apply for_each_clean.
  intros x Hx. apply (proj1 (set_of_In _ _)) in Hx. destruct (H x Hx) as [H0 H1].
  now rewrite H0, H1.
Qed.

Lemma check_once_bad (a : list pyval * list pyval) (l : list pyval) (x : pyval) :
  In x l -> ~ (count (fst a) x = 1 /\ count (snd a) x = 1) ->
  check_once a (set_of l) = Raise (ValueError "letters must appear once in each interval").
Proof.
  intros Hx Hn. unfold check_once.
  apply (for_each_dirty
           (fun y => negb (Nat.eqb (count (fst a) y) 1) || negb (Nat.eqb (count (snd a) y) 1))
           _ _ x); [now apply set_of_In|].
  destruct (Nat.eqb (count (fst a) x) 1) eqn:E0; [|reflexivity].
  destruct (Nat.eqb (count (snd a) x) 1) eqn:E1; [|reflexivity].
  apply Nat.eqb_eq in E0, E1. tauto.
Qed.

Lemma check_twice_ok (l : list pyval) :
  (forall x, In x l -> count l x = 2) -> check_twice l (set_of l) = Return tt.
Proof.
  intros H. unfold check_twice. apply for_each_clean.
  intros x Hx. apply (proj1 (set_of_In _ _)) in Hx. now rewrite (H x Hx).
Qed.

Lemma check_twice_bad (l : list pyval) (x : pyval) :
  In x l -> count l x <> 2 ->
  check_twice l (set_of l) = Raise (ValueError "Letters must reappear twice").
Proof.
  intros Hx Hn. unfold check_twice.
  apply (for_each_dirty (fun y => negb (Nat.eqb (count l y) 2)) _ _ x);
    [now apply set_of_In|].
  apply negb_true_iff, Nat.eqb_neq, Hn.
Qed.

(** The order in which a set of letters is iterated does not change what a
    validating loop does. *)
Lemma for_each_guard_order {A : Type} (bad : A -> bool) (e : exn) (ls ls' : list A) :
  (forall x, In x ls <-> In x ls') ->
  for_each ls (fun x => if bad x then Raise e else Return tt)
  = for_each ls' (fun x => if bad x then Raise e else Return tt).
Proof.
  intros H. rewrite !for_each_guard.
  destruct (existsb bad ls) eqn:E, (existsb bad ls') eqn:E'; try reflexivity.
  - apply existsb_exists in E. destruct E as (x & Hx & Hb).
    assert (F : existsb bad ls' = true) by (apply existsb_exists; exists x; split; [now apply H|exact Hb]).
    congruence.
  - apply existsb_exists in E'. destruct E' as (x & Hx & Hb).
    assert (F : existsb bad ls = true) by (apply existsb_exists; exists x; split; [now apply H|exact Hb]).
    congruence.
Qed.

(** When the loop over the letters falls through, every letter occurs
    twice. *)
Lemma check_twice_inv (l : list pyval) :
  check_twice l (set_of l) = Return tt -> forall x, In x l -> count l x = 2.
Proof.
  intros H x Hx. destruct (Nat.eq_dec (count l x) 2) as [E|E]; [exact E|].
  rewrite (check_twice_bad l x Hx E) in H. discriminate.
Qed.

(** ** The fresh-build paths *)

Lemma dispatch_returns (red fred lab flab : perm_class) (reduction : option bool)
    (a : list pyval * list pyval) (alphabet : option (list pyval)) (flips : list pyval) :
  dispatch red fred lab flab reduction a alphabet flips
  = Return (mk_permutation (chosen red fred lab flab reduction flips) a alphabet flips).
Proof.
  unfold dispatch, chosen, construct.
  destruct (truthy reduction), flips; reflexivity.
Qed.

(** The options read a second time by the generalized factory. *)
Lemma get_reduced_again (kargs : kwargs) (reduction : option bool) :
  get_reduced None kargs = Return reduction ->
  exists reduction', get_reduced (Some false) kargs = Return reduction'
                     /\ truthy reduction' = truthy reduction.
Proof.
  unfold get_reduced. destruct (kw_reduced kargs) as [[b|v]|]; intros H;
    inversion H; subst; eauto.
Qed.

(** The fresh-build path of the exchange factory, once the options are read
    and the rows are normalised. *)
Lemma Permutation_fresh (args : list pyval) (kargs : kwargs)
    (reduction : option bool) (flips : list pyval) (a : list pyval * list pyval) :
  get_reduced None kargs = Return reduction ->
  get_flips kargs = Return flips ->
  _two_lists (unwrap args) = Return a ->
  Permutation (ArgValues args) kargs
  = (check_flips (ValueError "flips contains not valid letters") flips
       (set_of (fst a ++ snd a)) ;;;
     check_once a (set_of (fst a ++ snd a)) ;;;
     dispatch ReducedPermutationIET FlippedReducedPermutationIET
              LabelledPermutationIET FlippedLabelledPermutationIET
              reduction a (kw_alphabet kargs) flips).
Proof.
  intros Hr Hf Ha. unfold Permutation. rewrite Hr, Hf. cbn [bind].
  rewrite Ha. reflexivity.
Qed.

Lemma chosen_exchange (reduction : option bool) (flips : list pyval) :
  let c := chosen ReducedPermutationIET FlippedReducedPermutationIET
             LabelledPermutationIET FlippedLabelledPermutationIET reduction flips in
  kind_of c = Exchange
  /\ reduction_of c = (if truthy reduction then Reduced else Labelled)
  /\ is_flipped c = negb (is_nil flips).
Proof. unfold chosen. destruct (truthy reduction), flips; cbn; auto. Qed.

Lemma chosen_generalized (reduction : option bool) (flips : list pyval) :
  let c := chosen ReducedPermutationLI FlippedReducedPermutationLI
             LabelledPermutationLI FlippedLabelledPermutationLI reduction flips in
  kind_of c = Generalized
  /\ reduction_of c = (if truthy reduction then Reduced else Labelled)
  /\ is_flipped c = negb (is_nil flips).
Proof. unfold chosen. destruct (truthy reduction), flips; cbn; auto. Qed.

(** ** Residual rows *)

Lemma count_cons (y x : pyval) (r : list pyval) :
  count (y :: r) x = (if py_eqb y x then 1 else 0) + count r x.
Proof.
  unfold count, py_eqb. cbn [count_occ].
  destruct (pyval_eq_dec y x); reflexivity.
Qed.

Lemma filter_other_absent (x : pyval) (b : list pyval) :
  count b x = 0 -> filter (other_than x) b = b.
Proof.
  induction b as [|y r IH]; [reflexivity|].
  rewrite count_cons. cbn [filter]. unfold other_than at 1.
  destruct (py_eqb y x); cbn; [discriminate|].
  intros H. now rewrite (IH H).
Qed.

Lemma count_filter_other (x y : pyval) (b : list pyval) :
  count (filter (other_than x) b) y = if py_eqb y x then 0 else count b y.
Proof.
  induction b as [|z r IH]; cbn [filter].
  - now destruct (py_eqb y x).
  - unfold other_than at 1. destruct (py_eqb z x) eqn:Ezx; cbn [negb].
    + rewrite IH, count_cons. apply py_eqb_eq in Ezx. subst z.
      destruct (py_eqb y x) eqn:Eyx; [reflexivity|].
      assert (E : py_eqb x y = false).
      { apply py_eqb_neq. apply py_eqb_neq in Eyx. congruence. }
      now rewrite E.
    + rewrite !count_cons, IH.
      destruct (py_eqb y x) eqn:Eyx; [|reflexivity].
      apply py_eqb_eq in Eyx. subst y. now rewrite Ezx.
Qed.

(** Deleting the first occurrence of a letter that occurs once removes the
    letter. *)
Lemma del_first_once (x : pyval) (b : list pyval) :
  count b x = 1 -> del_first x b = Return (filter (other_than x) b).
Proof.
  unfold del_first. induction b as [|y r IH]; [discriminate|].
  rewrite count_cons. cbn [index filter]. unfold other_than at 1.
  destruct (py_eqb y x); cbn [negb].
  - intros H. injection H as H. cbn [del]. now rewrite filter_other_absent.
  - intros H. specialize (IH H).
    destruct (index x r) as [i|]; [|discriminate].
    cbn [option_map del]. injection IH as IH. now rewrite IH.
Qed.

Lemma filter_all {A : Type} (f : A -> bool) (l : list A) :
  (forall x, In x l -> f x = true) -> filter f l = l.
Proof.
  induction l as [|x r IH]; [reflexivity|].
  intros H. cbn [filter]. rewrite (H x (or_introl eq_refl)).
  f_equal. apply IH. intros y Hy. apply H. now right.
Qed.

Lemma filter_twice {A : Type} (f g : A -> bool) (l : list A) :
  filter f (filter g l) = filter (fun x => g x && f x) l.
Proof.
  induction l as [|x r IH]; [reflexivity|].
  cbn [filter]. destruct (g x); cbn [filter andb]; [|exact IH].
  destruct (f x); now rewrite IH.
Qed.

Lemma is_in_cons (y x : pyval) (ls : list pyval) :
  is_in y (x :: ls) = py_eqb y x || is_in y ls.
Proof. reflexivity. Qed.

Lemma kept_skip (x y : pyval) (ls b0 : list pyval) :
  once_in b0 x = false -> kept (x :: ls) b0 y = kept ls b0 y.
Proof.
  intros H. unfold kept. rewrite is_in_cons.
  destruct (py_eqb y x) eqn:E; [|reflexivity].
  apply py_eqb_eq in E. subst y. rewrite H. now rewrite !andb_false_r.
Qed.

Lemma kept_removed (x y : pyval) (ls b0 : list pyval) :
  once_in b0 x = true ->
  other_than x y && kept ls (filter (other_than x) b0) y = kept (x :: ls) b0 y.
Proof.
  intros H. unfold kept, once_in in *. rewrite is_in_cons.
  rewrite count_filter_other. unfold other_than.
  destruct (py_eqb y x) eqn:E; cbn [negb andb orb].
  - apply py_eqb_eq in E. subst y. now rewrite H.
  - reflexivity.
Qed.

Lemma strip_filter (ls : list pyval) :
  forall b0 b1 : list pyval,
    (forall x, In x ls -> count b0 x = 1 -> count b1 x = 1) ->
    strip ls (b0, b1) = Return (filter (kept ls b0) b0, filter (kept ls b0) b1).
Proof.
  induction ls as [|x ls IH]; intros b0 b1 H.
  - cbn [strip]. now rewrite !filter_all.
  - cbn [strip]. unfold strip_step. cbn [fst snd].
    destruct (Nat.eqb (count b0 x) 1) eqn:E.
    + assert (E0 : count b0 x = 1) by now apply Nat.eqb_eq.
      assert (E1 : count b1 x = 1) by (apply H; [now left|exact E0]).
      rewrite (del_first_once x b0 E0), (del_first_once x b1 E1). cbn [bind].
      rewrite IH.
      * rewrite !filter_twice. f_equal; f_equal; apply filter_ext;
          intros y; now apply kept_removed.
      * intros y Hy. rewrite !count_filter_other.
        destruct (py_eqb y x); [discriminate|]. apply H. now right.
    + cbn [bind]. rewrite IH.
      * f_equal; f_equal; apply filter_ext; intros y; symmetry; now apply kept_skip.
      * intros y Hy. apply H. now right.
Qed.

(** The loop of the code computes the residual rows of the specification, on
    rows where every letter occurs twice. *)
Lemma strip_residual (a : list pyval * list pyval) :
  (forall x, In x (fst a ++ snd a) -> count (fst a ++ snd a) x = 2) ->
  strip (set_of (fst a ++ snd a)) a = Return (residual a).
Proof.
  intros H. destruct a as [a0 a1]. cbn [fst snd] in *.
  rewrite strip_filter.
  - unfold residual. cbn [fst snd]. f_equal; f_equal; apply filter_ext_in;
      intros y Hy; unfold kept;
      assert (Hin : is_in y (set_of (a0 ++ a1)) = true)
        by (apply is_in_In, set_of_In, in_or_app; auto);
      now rewrite Hin.
  - intros x Hx E. apply (proj1 (set_of_In _ _)) in Hx.
    specialize (H x Hx). rewrite count_app in H. lia.
Qed.

(** X17. On rows where every letter is twice in the concatenation, the loop
    that strips the letters computes the residual rows of the specification,
    without raising, in whatever order the set of letters is iterated. *)
Lemma strip_any_order (a : list pyval * list pyval) (ls : list pyval) :
  (forall x, In x ls <-> In x (fst a ++ snd a)) ->
  (forall x, In x (fst a ++ snd a) -> count (fst a ++ snd a) x = 2) ->
  strip ls a = Return (residual a).
Proof.
  intros Hls H. destruct a as [a0 a1]. cbn [fst snd] in *.
  rewrite strip_filter.
  - unfold residual. cbn [fst snd]. f_equal; f_equal; apply filter_ext_in;
      intros y Hy; unfold kept;
      assert (Hin : is_in y ls = true)
        by (apply is_in_In, Hls, in_or_app; auto);
      now rewrite Hin.
  - intros x Hx E. apply Hls in Hx.
    specialize (H x Hx). rewrite count_app in H. lia.
Qed.

Lemma filter_nil_inv {A : Type} (f : A -> bool) (l : list A) :
  filter f l = [] -> forall x, In x l -> f x = false.
Proof.
  intros H x Hx. destruct (f x) eqn:E; [|reflexivity].
  assert (Hin : In x (filter f l)) by (apply filter_In; auto).
  rewrite H in Hin. destruct Hin.
Qed.

(** Rows where every letter occurs twice and whose residual rows are both
    empty have every letter once in each row. *)
Lemma residual_nil_once (a : list pyval * list pyval) :
  (forall x, In x (fst a ++ snd a) -> count (fst a ++ snd a) x = 2) ->
  residual a = ([], []) ->
  forall x, In x (fst a ++ snd a) -> count (fst a) x = 1 /\ count (snd a) x = 1.
Proof.
  intros H R x Hx. unfold residual in R. injection R as R0 R1.
  assert (E : once_in (fst a) x = true).
  { apply in_app_or in Hx. destruct Hx as [Hx|Hx].
    - apply negb_false_iff. exact (filter_nil_inv _ _ R0 x Hx).
    - apply negb_false_iff. exact (filter_nil_inv _ _ R1 x Hx). }
  apply Nat.eqb_eq in E. specialize (H x Hx). rewrite count_app in H. lia.
Qed.

Lemma two_lists_rows_value (a : list pyval * list pyval) :
  _two_lists (unwrap [rows_value a]) = Return a.
Proof. destruct a as [a0 a1]. reflexivity. Qed.

(** The fresh-build path of the generalized factory, once the options are
    read, the rows are normalised and the first two checks are passed. *)
Lemma GeneralizedPermutation_fresh (args : list pyval) (kargs : kwargs)
    (reduction : option bool) (flips : list pyval) (a : list pyval * list pyval) :
  get_reduced None kargs = Return reduction ->
  get_flips kargs = Return flips ->
  _two_lists (unwrap args) = Return a ->
  (forall x, In x flips -> In x (fst a ++ snd a)) ->
  (forall x, In x (fst a ++ snd a) -> count (fst a ++ snd a) x = 2) ->
  GeneralizedPermutation (ArgValues args) kargs
  = if is_nil (fst (residual a)) && is_nil (snd (residual a)) then
      Permutation (ArgValues [rows_value a]) kargs
    else if is_nil (fst (residual a)) || is_nil (snd (residual a)) then
      Raise (ValueError "There is no admissible length")
    else
      Return (mk_permutation
                (chosen ReducedPermutationLI FlippedReducedPermutationLI
                        LabelledPermutationLI FlippedLabelledPermutationLI
                        reduction flips)
                a (kw_alphabet kargs) flips).
Proof.
  intros Hr Hf Ha Hfl Htw. unfold GeneralizedPermutation.
  rewrite Hr, Hf. cbn [bind]. rewrite Ha. cbn [bind].
  destruct (get_reduced_again kargs reduction Hr) as (r' & Hr' & Ht).
  rewrite Hr'. cbn [bind].
  rewrite (check_flips_ok _ flips _ Hfl). cbn [bind].
  rewrite (check_twice_ok _ Htw). cbn [bind].
  rewrite (strip_residual a Htw). cbn [bind].
  rewrite dispatch_returns. unfold chosen. now rewrite Ht.
Qed.

(** On fresh input with valid flips and every letter once in each row the
    exchange factory returns a permutation of one of its four classes. *)
Lemma exchange_fresh_builds (args : list pyval) (kargs : kwargs)
    (reduction : option bool) (flips : list pyval) (a : list pyval * list pyval) :
  get_reduced None kargs = Return reduction ->
  get_flips kargs = Return flips ->
  _two_lists (unwrap args) = Return a ->
  (forall x, In x flips -> In x (fst a ++ snd a)) ->
  (forall x, In x (fst a ++ snd a) -> count (fst a) x = 1 /\ count (snd a) x = 1) ->
  exists p, Permutation (ArgValues args) kargs = Return p
    /\ kind_of (p_class p) = Exchange
    /\ reduction_of (p_class p) = (if truthy reduction then Reduced else Labelled)
    /\ is_flipped (p_class p) = negb (is_nil flips)
    /\ p_intervals p = a /\ p_alphabet p = kw_alphabet kargs /\ p_flips p = flips.
Proof.
  intros Hr Hf Ha Hfl Hall.
  rewrite (Permutation_fresh args kargs reduction flips a Hr Hf Ha).
  rewrite (check_flips_ok _ flips _ Hfl). cbn [bind].
  rewrite (check_once_ok a _ Hall). cbn [bind].
  rewrite dispatch_returns. eexists. split; [reflexivity|].
  cbn [p_class p_intervals p_alphabet p_flips].
  destruct (chosen_exchange reduction flips) as (H1 & H2 & H3).
  repeat split; assumption || reflexivity.
Qed.

(** ** The normaliser on a single string *)

Lemma white_is_space (c : ascii) : white c = is_space c.
Proof. destruct c as [[] [] [] [] [] [] [] []]; reflexivity. Qed.

Lemma word_is_token (t : string) : word t = is_token t.
Proof.
  unfold word, is_token. f_equal.
  induction t as [|c t IH]; [reflexivity|].
  cbn [all_chars]. now rewrite IH, white_is_space.
Qed.

Lemma append_empty (s : string) : (s ++ EmptyString)%string = s.
Proof. induction s as [|c s IH]; [reflexivity|]. cbn [append]. now rewrite IH. Qed.

Lemma split_ws_blank_app (ws x : string) :
  blank ws = true -> split_ws (ws ++ x)%string = split_ws x.
Proof.
  induction ws as [|c ws IH]; [reflexivity|].
  unfold blank. cbn [all_chars append]. intros H.
  apply andb_true_iff in H. destruct H as [Hc Hws].
  rewrite white_is_space in Hc. rewrite (split_ws_space c _ Hc). now apply IH.
Qed.

(** The words of a string are what [split_ws] returns. *)
Lemma tokens_of_split_ws (s : string) (ts : list string) :
  tokens_of s ts -> split_ws s = ts.
Proof.
  induction 1 as [s Hb|ws t rest ts Hws Ht Hrest _ IH].
  - rewrite <- (append_empty s). now rewrite (split_ws_blank_app s EmptyString Hb).
  - rewrite (split_ws_blank_app ws _ Hws). rewrite word_is_token in Ht.
    destruct rest as [|c r].
    + rewrite append_empty. cbn in IH. subst ts. now apply split_ws_token.
    + cbn [starts_white] in Hrest. rewrite white_is_space in Hrest.
      rewrite (split_ws_token_space t c r Ht Hrest).
      now rewrite <- IH, (split_ws_space c r Hrest).
Qed.

Lemma tokens_of_white (c : ascii) (s : string) (ts : list string) :
  white c = true -> tokens_of s ts -> tokens_of (String c s) ts.
Proof.
  intros Hc H. destruct H as [s Hb|ws t rest ts Hws Ht Hrest Hts].
  - apply tokens_blank. unfold blank in *. cbn [all_chars]. now rewrite Hc, Hb.
  - change (String c (ws ++ t ++ rest)%string) with ((String c ws) ++ t ++ rest)%string.
    apply tokens_word; try assumption.
    unfold blank in *. cbn [all_chars]. now rewrite Hc, Hws.
Qed.

(** Every string has words, those that [split_ws] returns. *)
Lemma split_ws_tokens_of (s : string) : tokens_of s (split_ws s).
Proof.
  induction s as [|c r IH]; [now apply tokens_blank|].
  destruct (white c) eqn:Hc.
  - assert (Hs : is_space c = true) by (rewrite <- white_is_space; exact Hc).
    rewrite (split_ws_space c r Hs). now apply tokens_of_white.
  - assert (Hs : is_space c = false) by (rewrite <- white_is_space; exact Hc).
    assert (Hw : forall t, all_chars (fun d => negb (white d)) t = true ->
                 word (String c t) = true).
    { intros t Ht. unfold word. cbn [String.eqb all_chars]. now rewrite Hc, Ht. }
    rewrite (split_ws_cons c r Hs). destruct r as [|d r'].
    + apply (tokens_word EmptyString (String c EmptyString) EmptyString []);
        [reflexivity|now apply Hw|reflexivity|now apply tokens_blank].
    + destruct (is_space d) eqn:Hd.
      * apply (tokens_word EmptyString (String c EmptyString) (String d r') _);
          [reflexivity|now apply Hw| |exact IH].
        cbn [starts_white]. now rewrite white_is_space.
      * assert (Hwd : white d = false) by (rewrite white_is_space; exact Hd).
        inversion IH as [s0 Hb Hs0 Hnil|ws t rest ts Hws Ht Hrest Hts Hs0 Hcons].
        -- unfold blank in Hb. cbn [all_chars] in Hb. rewrite Hwd in Hb. discriminate.
        -- destruct ws as [|w ws'].
           ++ cbn [append] in *.
              apply (tokens_word EmptyString (String c t) rest ts);
                [reflexivity| |exact Hrest|exact Hts].
              apply Hw. unfold word in Ht. apply andb_true_iff in Ht. tauto.
           ++ cbn [append] in Hs0. injection Hs0 as -> _.
              unfold blank in Hws. cbn [all_chars] in Hws. rewrite Hwd in Hws. discriminate.
Qed.

(** C8. On a single string, [_two_lists] splits on the line feed.  With
    exactly one line feed, that is two lines, the string is the first line,
    the line feed and the second line, each line has its words (the maximal
    runs of characters other than space, tab, line feed, vertical tab, form
    feed and carriage return), and the result is the two rows of these words,
    whichever way the lines and their words are found.  With any other number
    of lines the call raises the error "your chain must contain two lines". *)
Theorem two_lists_single_string (s : string) :
  (occurrences "010" s = 1 ->
   exists l0 l1 r0 r1,
     s = (l0 ++ String "010" l1)%string
     /\ occurrences "010" l0 = 0 /\ occurrences "010" l1 = 0
     /\ tokens_of l0 r0 /\ tokens_of l1 r1
     /\ _two_lists (PyStr s) = Return (map PyStr r0, map PyStr r1))
  /\ (forall l0 l1 r0 r1,
        s = (l0 ++ String "010" l1)%string ->
        occurrences "010" l0 = 0 -> occurrences "010" l1 = 0 ->
        tokens_of l0 r0 -> tokens_of l1 r1 ->
        _two_lists (PyStr s) = Return (map PyStr r0, map PyStr r1))
  /\ (occurrences "010" s <> 1 ->
      _two_lists (PyStr s) = Raise (ValueError "your chain must contain two lines")).
Proof.
  assert (Hrows : forall l0 l1 r0 r1,
            s = (l0 ++ String "010" l1)%string ->
            occurrences "010" l0 = 0 -> occurrences "010" l1 = 0 ->
            tokens_of l0 r0 -> tokens_of l1 r1 ->
            _two_lists (PyStr s) = Return (map PyStr r0, map PyStr r1)).
  { intros l0 l1 r0 r1 -> H0 H1 T0 T1. cbn [_two_lists].
    change newline with "010"%char.
    rewrite (split_on_app "010" l0 l1 H0), (split_on_none "010" l1 H1).
    now rewrite (tokens_of_split_ws l0 r0 T0), (tokens_of_split_ws l1 r1 T1). }
  split; [|split; [exact Hrows|]].
  - intros H.
    destruct (split_on_one "010" s H) as (l0 & l1 & Hs & H0 & H1 & _).
    exists l0, l1, (split_ws l0), (split_ws l1).
    repeat split; try assumption; try apply split_ws_tokens_of.
    apply (Hrows l0 l1 _ _ Hs H0 H1); apply split_ws_tokens_of.
  - intros H. cbn [_two_lists].
    pose proof (split_on_length newline s) as L. change newline with "010"%char in *.
    destruct (split_on "010" s) as [|l0 [|l1 [|l2 r]]]; try reflexivity.
    cbn in L. congruence.
Qed.

Lemma two_lists_single_string_witness :
  _two_lists (PyStr ("a1 a2" ++ String "010" "b1 b2"))
  = Return ([PyStr "a1"; PyStr "a2"], [PyStr "b1"; PyStr "b2"])
  /\ _two_lists (PyStr "a b") = Raise (ValueError "your chain must contain two lines").
Proof.
  split.
  - apply (proj1 (proj2 (two_lists_single_string ("a1 a2" ++ String "010" "b1 b2")))
             "a1 a2" "b1 b2" ["a1"; "a2"] ["b1"; "b2"] eq_refl eq_refl eq_refl).
    + apply (tokens_word "" "a1" " a2" ["a2"] eq_refl eq_refl eq_refl).
      apply (tokens_word " " "a2" "" [] eq_refl eq_refl eq_refl).
      now apply tokens_blank.
    + apply (tokens_word "" "b1" " b2" ["b2"] eq_refl eq_refl eq_refl).
      apply (tokens_word " " "b2" "" [] eq_refl eq_refl eq_refl).
      now apply tokens_blank.
  - apply (proj2 (proj2 (two_lists_single_string "a b"))). vm_compute. discriminate.
Defined.

Example two_lists_text :
  _two_lists (PyStr two_line_text)
  = Return ([PyStr "a1"; PyStr "a2"], [PyStr "b1"; PyStr "b2"]).
Proof. reflexivity. Qed.

(** ** The exchange factory on fresh input *)

(** C1, counterexample.  The rows [a] and [a a] with the flip [z]: the letter
    [a] is twice in the second row, and the call raises the error on flips,
    which is tested first. *)
Lemma once_violation_behind_flips :
  Permutation (args2 "a" "a a") (mk_kwargs None (flips_of ["z"]) None)
  = Raise (ValueError "flips contains not valid letters")
  /\ ~ once_violation_reported [PyStr "a"; PyStr "a a"] (mk_kwargs None (flips_of ["z"]) None).
Proof.
  split; [reflexivity|].
  intros H. specialize (H ([PyStr "a"], [PyStr "a"; PyStr "a"]) eq_refl).
  assert (E : Permutation (ArgValues [PyStr "a"; PyStr "a a"])
                (mk_kwargs None (flips_of ["z"]) None)
              = Raise (ValueError "letters must appear once in each interval")).
  { apply H. exists (PyStr "a"). split; [now left|].
    intros [_ E]. vm_compute in E. discriminate. }
  vm_compute in E. discriminate.
Qed.

(** C1, amended.  On fresh input whose options are read without error, whose
    rows are normalised to [a] and whose flips all occur in the rows: if some
    letter is not exactly once in each row the call raises "letters must
    appear once in each interval"; if every letter is exactly once in each row
    the call returns an exchange permutation on the rows [a], reduced when
    [reduced] is true and flipped when there are flips. *)
Theorem exchange_once_check (args : list pyval) (kargs : kwargs)
    (reduction : option bool) (flips : list pyval) (a : list pyval * list pyval) :
  get_reduced None kargs = Return reduction ->
  get_flips kargs = Return flips ->
  _two_lists (unwrap args) = Return a ->
  (forall x, In x flips -> In x (fst a ++ snd a)) ->
  ((exists x, In x (fst a ++ snd a) /\ ~ (count (fst a) x = 1 /\ count (snd a) x = 1)) ->
   Permutation (ArgValues args) kargs
   = Raise (ValueError "letters must appear once in each interval"))
  /\ ((forall x, In x (fst a ++ snd a) -> count (fst a) x = 1 /\ count (snd a) x = 1) ->
      exists p, Permutation (ArgValues args) kargs = Return p
        /\ kind_of (p_class p) = Exchange
        /\ reduction_of (p_class p) = (if truthy reduction then Reduced else Labelled)
        /\ is_flipped (p_class p) = negb (is_nil flips)
        /\ p_intervals p = a /\ p_alphabet p = kw_alphabet kargs /\ p_flips p = flips).
Proof.
  intros Hr Hf Ha Hfl. split.
  - intros (x & Hx & Hn).
    rewrite (Permutation_fresh args kargs reduction flips a Hr Hf Ha).
    rewrite (check_flips_ok _ flips _ Hfl). cbn [bind].
    now rewrite (check_once_bad a _ x Hx Hn).
  - intros Hall. now apply (exchange_fresh_builds args kargs reduction flips a).
Qed.

Lemma exchange_once_check_witness :
  Permutation (args2 "a b c" "c a a") (mk_kwargs (Some (KwBool true)) None None)
  = Raise (ValueError "letters must appear once in each interval")
  /\ exists p, Permutation (args2 "a b c" "c b a") (mk_kwargs None (flips_of ["a"]) None) = Return p
        /\ kind_of (p_class p) = Exchange
        /\ reduction_of (p_class p) = Labelled
        /\ is_flipped (p_class p) = true
        /\ p_intervals p = ([PyStr "a"; PyStr "b"; PyStr "c"], [PyStr "c"; PyStr "b"; PyStr "a"])
        /\ p_alphabet p = None /\ p_flips p = [PyStr "a"].
Proof.
  split.
  - apply (proj1 (exchange_once_check [PyStr "a b c"; PyStr "c a a"]
                    (mk_kwargs (Some (KwBool true)) None None) (Some true) []
                    ([PyStr "a"; PyStr "b"; PyStr "c"], [PyStr "c"; PyStr "a"; PyStr "a"])
                    eq_refl eq_refl eq_refl ltac:(each_letter))).
    exists (PyStr "a"). split; [now left|].
    intros [_ E]. vm_compute in E. discriminate.
  - apply (proj2 (exchange_once_check [PyStr "a b c"; PyStr "c b a"]
                    (mk_kwargs None (flips_of ["a"]) None) None [PyStr "a"]
                    ([PyStr "a"; PyStr "b"; PyStr "c"], [PyStr "c"; PyStr "b"; PyStr "a"])
                    eq_refl eq_refl eq_refl ltac:(each_letter))).
    each_letter.
Defined.

(** ** The generalized factory on fresh input *)

(** C2, counterexample.  The rows [a] and [a a] with the flip [z]: the letter
    [a] occurs three times, and the call raises the [TypeError] on flips,
    which is tested first. *)
Lemma twice_violation_behind_flips :
  GeneralizedPermutation (args2 "a" "a a") (mk_kwargs None (flips_of ["z"]) None)
  = Raise (TypeError "The flip list is not valid")
  /\ ~ twice_violation_reported [PyStr "a"; PyStr "a a"] (mk_kwargs None (flips_of ["z"]) None).
Proof.
  split; [reflexivity|].
  intros H. specialize (H ([PyStr "a"], [PyStr "a"; PyStr "a"]) eq_refl).
  assert (E : GeneralizedPermutation (ArgValues [PyStr "a"; PyStr "a a"])
                (mk_kwargs None (flips_of ["z"]) None)
              = Raise (ValueError "Letters must reappear twice")).
  { apply H. exists (PyStr "a"). split; [now left|].
    intros E. vm_compute in E. discriminate. }
  vm_compute in E. discriminate.
Qed.

(** C2, amended.  On fresh input whose options are read without error, whose
    rows are normalised to [a] and whose flips all occur in the rows: if some
    letter is not exactly twice in the concatenation of the rows the call
    raises "Letters must reappear twice"; and whenever the call returns a
    permutation, every letter is exactly twice in the concatenation. *)
Theorem generalized_twice_check (args : list pyval) (kargs : kwargs)
    (reduction : option bool) (flips : list pyval) (a : list pyval * list pyval) :
  get_reduced None kargs = Return reduction ->
  get_flips kargs = Return flips ->
  _two_lists (unwrap args) = Return a ->
  (forall x, In x flips -> In x (fst a ++ snd a)) ->
  ((exists x, In x (fst a ++ snd a) /\ count (fst a ++ snd a) x <> 2) ->
   GeneralizedPermutation (ArgValues args) kargs
   = Raise (ValueError "Letters must reappear twice"))
  /\ (forall p, GeneralizedPermutation (ArgValues args) kargs = Return p ->
      forall x, In x (fst a ++ snd a) -> count (fst a ++ snd a) x = 2).
Proof.
  intros Hr Hf Ha Hfl.
  assert (Hbad : forall x, In x (fst a ++ snd a) -> count (fst a ++ snd a) x <> 2 ->
            GeneralizedPermutation (ArgValues args) kargs
            = Raise (ValueError "Letters must reappear twice")).
  { intros x Hx Hn. unfold GeneralizedPermutation.
    rewrite Hr, Hf. cbn [bind]. rewrite Ha. cbn [bind].
    destruct (get_reduced_again kargs reduction Hr) as (r' & Hr' & _).
    rewrite Hr'. cbn [bind].
    rewrite (check_flips_ok _ flips _ Hfl). cbn [bind].
    now rewrite (check_twice_bad _ x Hx Hn). }
  split.
  - intros (x & Hx & Hn). now apply (Hbad x).
  - intros p Hp x Hx.
    destruct (Nat.eq_dec (count (fst a ++ snd a) x) 2) as [E|E]; [exact E|].
    rewrite (Hbad x Hx E) in Hp. discriminate.
Qed.

Lemma generalized_twice_check_witness :
  GeneralizedPermutation (args2 "a b c a" "d c c b") (mk_kwargs None (flips_of ["a"; "b"]) None)
  = Raise (ValueError "Letters must reappear twice").
Proof.
  apply (proj1 (generalized_twice_check [PyStr "a b c a"; PyStr "d c c b"]
                  (mk_kwargs None (flips_of ["a"; "b"]) None) None [PyStr "a"; PyStr "b"]
                  ([PyStr "a"; PyStr "b"; PyStr "c"; PyStr "a"],
                   [PyStr "d"; PyStr "c"; PyStr "c"; PyStr "b"])
                  eq_refl eq_refl eq_refl ltac:(each_letter))).
  exists (PyStr "c"). split; [cbn; tauto|].
  intros E. vm_compute in E. discriminate.
Defined.

(** C9. On fresh input whose options are read without error and whose rows
    are normalised, a flip that occurs in neither row makes the exchange
    factory raise the [ValueError] "flips contains not valid letters" and the
    generalized factory raise the [TypeError] "The flip list is not valid". *)
Theorem invalid_flip_errors (args : list pyval) (kargs : kwargs)
    (reduction : option bool) (flips : list pyval) (a : list pyval * list pyval)
    (x : pyval) :
  get_reduced None kargs = Return reduction ->
  get_flips kargs = Return flips ->
  _two_lists (unwrap args) = Return a ->
  In x flips -> ~ In x (fst a ++ snd a) ->
  Permutation (ArgValues args) kargs
  = Raise (ValueError "flips contains not valid letters")
  /\ GeneralizedPermutation (ArgValues args) kargs
     = Raise (TypeError "The flip list is not valid").
Proof.
  intros Hr Hf Ha Hx Hn. split.
  - rewrite (Permutation_fresh args kargs reduction flips a Hr Hf Ha).
    now rewrite (check_flips_bad _ flips _ x Hx Hn).
  - unfold GeneralizedPermutation.
    rewrite Hr, Hf. cbn [bind]. rewrite Ha. cbn [bind].
    destruct (get_reduced_again kargs reduction Hr) as (r' & Hr' & _).
    rewrite Hr'. cbn [bind].
    now rewrite (check_flips_bad _ flips _ x Hx Hn).
Qed.

Lemma invalid_flip_errors_witness :
  Permutation (args2 "a b c a" "d c d b") (mk_kwargs None (flips_of ["e"; "b"]) None)
  = Raise (ValueError "flips contains not valid letters")
  /\ GeneralizedPermutation (args2 "a b c a" "d c d b") (mk_kwargs None (flips_of ["e"; "b"]) None)
     = Raise (TypeError "The flip list is not valid").
Proof.
  apply (invalid_flip_errors [PyStr "a b c a"; PyStr "d c d b"]
           (mk_kwargs None (flips_of ["e"; "b"]) None) None [PyStr "e"; PyStr "b"]
           ([PyStr "a"; PyStr "b"; PyStr "c"; PyStr "a"],
            [PyStr "d"; PyStr "c"; PyStr "d"; PyStr "b"])
           (PyStr "e") eq_refl eq_refl eq_refl).
  - now left.
  - cbn. intros H. repeat (destruct H as [H|H]; [discriminate|]). exact H.
Defined.

(** C3. On fresh input that passes the check on flips and the check that
    every letter is twice in the concatenation of the rows, and whose residual
    rows are both empty, the generalized factory returns what the exchange
    factory returns on the normalised rows with the same keywords, which is
    also what the exchange factory returns on the original arguments; in
    particular when no flips are requested. *)
Theorem generalized_degenerate_delegates (args : list pyval) (kargs : kwargs)
    (reduction : option bool) (flips : list pyval) (a : list pyval * list pyval) :
  get_reduced None kargs = Return reduction ->
  get_flips kargs = Return flips ->
  _two_lists (unwrap args) = Return a ->
  (forall x, In x flips -> In x (fst a ++ snd a)) ->
  (forall x, In x (fst a ++ snd a) -> count (fst a ++ snd a) x = 2) ->
  residual a = ([], []) ->
  GeneralizedPermutation (ArgValues args) kargs
  = Permutation (ArgValues [rows_value a]) kargs
  /\ GeneralizedPermutation (ArgValues args) kargs = Permutation (ArgValues args) kargs.
Proof.
  intros Hr Hf Ha Hfl Htw Hres.
  rewrite (GeneralizedPermutation_fresh args kargs reduction flips a Hr Hf Ha Hfl Htw).
  rewrite Hres. cbn [fst snd is_nil andb]. split; [reflexivity|].
  rewrite (Permutation_fresh [rows_value a] kargs reduction flips a Hr Hf
             (two_lists_rows_value a)).
  now rewrite (Permutation_fresh args kargs reduction flips a Hr Hf Ha).
Qed.

Lemma generalized_degenerate_delegates_witness :
  GeneralizedPermutation (args2 "a b c" "c b a") no_options
  = Permutation (ArgValues [rows_value ([PyStr "a"; PyStr "b"; PyStr "c"],
                                        [PyStr "c"; PyStr "b"; PyStr "a"])]) no_options
  /\ GeneralizedPermutation (args2 "a b c" "c b a") no_options
     = Permutation (args2 "a b c" "c b a") no_options.
Proof.
  apply (generalized_degenerate_delegates [PyStr "a b c"; PyStr "c b a"] no_options None []
           ([PyStr "a"; PyStr "b"; PyStr "c"], [PyStr "c"; PyStr "b"; PyStr "a"])
           eq_refl eq_refl eq_refl ltac:(each_letter) ltac:(each_letter) eq_refl).
Defined.

Example generalized_degenerate_value :
  GeneralizedPermutation (args2 "a b c" "c b a") no_options
  = Return (mk_permutation LabelledPermutationIET
              ([PyStr "a"; PyStr "b"; PyStr "c"], [PyStr "c"; PyStr "b"; PyStr "a"])
              None []).
Proof. reflexivity. Qed.

(** C4. On fresh input that passes the check on flips and the check that
    every letter is twice in the concatenation of the rows, if exactly one of
    the two residual rows is empty the generalized factory raises "There is no
    admissible length". *)
Theorem generalized_no_admissible_length (args : list pyval) (kargs : kwargs)
    (reduction : option bool) (flips : list pyval) (a : list pyval * list pyval) :
  get_reduced None kargs = Return reduction ->
  get_flips kargs = Return flips ->
  _two_lists (unwrap args) = Return a ->
  (forall x, In x flips -> In x (fst a ++ snd a)) ->
  (forall x, In x (fst a ++ snd a) -> count (fst a ++ snd a) x = 2) ->
  (fst (residual a) = [] /\ snd (residual a) <> [])
  \/ (fst (residual a) <> [] /\ snd (residual a) = []) ->
  GeneralizedPermutation (ArgValues args) kargs
  = Raise (ValueError "There is no admissible length").
Proof.
  intros Hr Hf Ha Hfl Htw Hone.
  rewrite (GeneralizedPermutation_fresh args kargs reduction flips a Hr Hf Ha Hfl Htw).
  destruct (fst (residual a)) as [|x0 r0], (snd (residual a)) as [|x1 r1];
    cbn [is_nil andb orb]; try reflexivity;
    destruct Hone as [[H0 H1]|[H0 H1]]; congruence.
Qed.

Lemma generalized_no_admissible_length_witness :
  GeneralizedPermutation (args2 "a a b" "b") no_options
  = Raise (ValueError "There is no admissible length")
  /\ GeneralizedPermutation (args2 "a" "a b b") (mk_kwargs (Some (KwBool true)) None None)
     = Raise (ValueError "There is no admissible length").
Proof.
  split.
  - apply (generalized_no_admissible_length [PyStr "a a b"; PyStr "b"] no_options None []
             ([PyStr "a"; PyStr "a"; PyStr "b"], [PyStr "b"])
             eq_refl eq_refl eq_refl ltac:(each_letter) ltac:(each_letter)).
    right. vm_compute. split; [discriminate|reflexivity].
  - apply (generalized_no_admissible_length [PyStr "a"; PyStr "a b b"]
             (mk_kwargs (Some (KwBool true)) None None) (Some true) []
             ([PyStr "a"], [PyStr "a"; PyStr "b"; PyStr "b"])
             eq_refl eq_refl eq_refl ltac:(each_letter) ltac:(each_letter)).
    left. vm_compute. split; [reflexivity|discriminate].
Defined.

(** C10. When the fresh-build path of the generalized factory reaches the
    delegation (the flips are valid, every letter is twice in the
    concatenation of the rows and both residual rows are empty), every letter
    is exactly once in each row, the check of the exchange factory on the rows
    falls through, and the call returns an exchange permutation on the
    rows. *)
Theorem degenerate_delegation_builds (args : list pyval) (kargs : kwargs)
    (reduction : option bool) (flips : list pyval) (a : list pyval * list pyval) :
  get_reduced None kargs = Return reduction ->
  get_flips kargs = Return flips ->
  _two_lists (unwrap args) = Return a ->
  (forall x, In x flips -> In x (fst a ++ snd a)) ->
  (forall x, In x (fst a ++ snd a) -> count (fst a ++ snd a) x = 2) ->
  residual a = ([], []) ->
  (forall x, In x (fst a ++ snd a) -> count (fst a) x = 1 /\ count (snd a) x = 1)
  /\ check_once a (set_of (fst a ++ snd a)) = Return tt
  /\ exists p, GeneralizedPermutation (ArgValues args) kargs = Return p
       /\ Permutation (ArgValues [rows_value a]) kargs = Return p
       /\ kind_of (p_class p) = Exchange
       /\ reduction_of (p_class p) = (if truthy reduction then Reduced else Labelled)
       /\ is_flipped (p_class p) = negb (is_nil flips)
       /\ p_intervals p = a /\ p_alphabet p = kw_alphabet kargs /\ p_flips p = flips.
Proof.
  intros Hr Hf Ha Hfl Htw Hres.
  pose proof (residual_nil_once a Htw Hres) as Honce.
  split; [exact Honce|]. split; [now apply check_once_ok|].
  rewrite (GeneralizedPermutation_fresh args kargs reduction flips a Hr Hf Ha Hfl Htw).
  rewrite Hres. cbn [fst snd is_nil andb].
  destruct (exchange_fresh_builds [rows_value a] kargs reduction flips a Hr Hf
              (two_lists_rows_value a) Hfl Honce) as (p & Hp & Hrest).
  exists p. split; [exact Hp|]. split; [exact Hp|exact Hrest].
Qed.

Lemma degenerate_delegation_builds_witness :
  exists p, GeneralizedPermutation (args2 "a b" "b a") (mk_kwargs (Some (KwBool true)) (flips_of ["b"]) None)
            = Return p
    /\ p_class p = FlippedReducedPermutationIET.
Proof.
  destruct (degenerate_delegation_builds [PyStr "a b"; PyStr "b a"]
              (mk_kwargs (Some (KwBool true)) (flips_of ["b"]) None) (Some true) [PyStr "b"]
              ([PyStr "a"; PyStr "b"], [PyStr "b"; PyStr "a"])
              eq_refl eq_refl eq_refl ltac:(each_letter) ltac:(each_letter) eq_refl)
    as (_ & _ & p & Hp & _).
  exists p. split; [exact Hp|].
  vm_compute in Hp. injection Hp as <-. reflexivity.
Defined.

(** ** Conversion of an existing object *)

Example reduced_ab_ba_built :
  Permutation (args2 "a b" "b a") reduced_true = Return reduced_ab_ba.
Proof. reflexivity. Qed.

(** A reduced object, no flips: a clone unless [reduced] is false, and then
    the value of the template class called with [reduced=True]. *)
Lemma convert_reduced_no_flips (t : template_class) (p : permutation)
    (reduction : option bool) (alphabet : option (list pyval)) :
  reduction_of (p_class p) = Reduced ->
  convert t p reduction [] alphabet
  = match reduction with
    | Some false => Template (mk_template_call t (p_intervals p) true None None)
    | _ => Return p
    end.
Proof.
  intros H. unfold convert. rewrite H. cbn [is_nil].
  destruct reduction as [[|]|]; reflexivity.
Qed.

(** A labelled object, no flips: a clone unless [reduced] is true, and then
    its own reduction. *)
Lemma convert_labelled_no_flips (t : template_class) (p : permutation)
    (reduction : option bool) (alphabet : option (list pyval)) :
  reduction_of (p_class p) = Labelled ->
  convert t p reduction [] alphabet
  = match reduction with
    | Some true => reduced_method p
    | _ => Return p
    end.
Proof.
  intros H. unfold convert. rewrite H. cbn [is_nil].
  destruct reduction as [[|]|]; reflexivity.
Qed.

(** The second half of C5: a reduced object, no flips, [reduced] absent or
    true, is cloned. *)
Lemma reduced_object_cloned (p : permutation) (alphabet : option (list pyval)) :
  reduction_of (p_class p) = Reduced ->
  Permutation (ArgObject p) (mk_kwargs None None alphabet) = Return p
  /\ Permutation (ArgObject p) (mk_kwargs (Some (KwBool true)) None alphabet) = Return p.
Proof.
  intros H. unfold Permutation. cbn.
  now rewrite !(convert_reduced_no_flips PermutationIET p _ alphabet H).
Qed.

Lemma reduced_object_reduction_false (p : permutation) (alphabet : option (list pyval)) :
  reduction_of (p_class p) = Reduced ->
  Permutation (ArgObject p) (mk_kwargs (Some (KwBool false)) None alphabet)
  = Template (mk_template_call PermutationIET (p_intervals p) true None None).
Proof.
  intros H. unfold Permutation. cbn.
  now rewrite (convert_reduced_no_flips PermutationIET p _ alphabet H).
Qed.

(** C5, at the failing input.  The reduced permutation on the rows [a b] and
    [b a], given back to the exchange factory with [reduced=False] and no
    flips: the factory constructs no labelled permutation, its result is the
    value of [PermutationIET(p.list(), reduced=True)].  With a flip added,
    the same object and the same [reduced=False] lead to the call with
    [reduced=False]. *)
Theorem reduced_to_labelled_asks_reduced :
  Permutation (ArgObject reduced_ab_ba) reduced_false
  = Template (mk_template_call PermutationIET
                ([PyStr "a"; PyStr "b"], [PyStr "b"; PyStr "a"]) true None None)
  /\ Permutation (ArgObject reduced_ab_ba)
       (mk_kwargs (Some (KwBool false)) (flips_of ["a"]) None)
     = Template (mk_template_call PermutationIET
                   ([PyStr "a"; PyStr "b"], [PyStr "b"; PyStr "a"]) false
                   (Some [PyStr "a"]) (Some None)).
Proof. split; reflexivity. Qed.

(** C6. For an exchange permutation [p], the exchange factory with no option
    returns a clone equal to [p], and so does the factory applied to that
    clone; with [reduced=True] on a reduced [p] it returns a clone equal to
    [p]. *)
Theorem exchange_round_trip (p : permutation) :
  kind_of (p_class p) = Exchange ->
  Permutation (ArgObject p) no_options = Return p
  /\ (q <- Permutation (ArgObject p) no_options ;; Permutation (ArgObject q) no_options)
     = Return p
  /\ (reduction_of (p_class p) = Reduced ->
      Permutation (ArgObject p) reduced_true = Return p).
Proof.
  intros _.
  assert (H : Permutation (ArgObject p) no_options = Return p).
  { unfold Permutation. cbn.
    destruct (reduction_of (p_class p)) eqn:E.
    - now rewrite (convert_labelled_no_flips _ p None None E).
    - now rewrite (convert_reduced_no_flips _ p None None E). }
  split; [exact H|]. split.
  - rewrite H. cbn [bind]. exact H.
  - intros E. exact (proj2 (reduced_object_cloned p None E)).
Qed.

Lemma exchange_round_trip_witness :
  Permutation (ArgObject reduced_ab_ba) no_options = Return reduced_ab_ba
  /\ (q <- Permutation (ArgObject reduced_ab_ba) no_options ;;
      Permutation (ArgObject q) no_options) = Return reduced_ab_ba
  /\ Permutation (ArgObject reduced_ab_ba) reduced_true = Return reduced_ab_ba.
Proof.
  destruct (exchange_round_trip reduced_ab_ba eq_refl) as (H1 & H2 & H3).
  split; [exact H1|]. split; [exact H2|]. apply H3. reflexivity.
Defined.

(** ** Lengths of an interval exchange transformation *)

Lemma iet_after_resolution (perm : perm_arg) (lengths : lengths_arg)
    (p : permutation) (l : list length_value) :
  flipped_arg perm = false ->
  as_labelled perm = Return p ->
  resolve_lengths p lengths = Return l ->
  IntervalExchangeTransformation perm lengths
  = if negb (Nat.eqb (List.length l) (len_method p))
    then Raise (ValueError "bad number of lengths")
    else check_lengths l ;;; Return (mk_iet p l).
Proof.
  intros Hf Hp Hl. unfold IntervalExchangeTransformation.
  rewrite Hf, Hp. cbn [bind]. rewrite Hl. reflexivity.
Qed.

(** The number of lengths is tested before any entry is converted. *)
Lemma iet_bad_number_first (perm : perm_arg) (lengths : lengths_arg)
    (p : permutation) (l : list length_value) :
  flipped_arg perm = false ->
  as_labelled perm = Return p ->
  resolve_lengths p lengths = Return l ->
  List.length l <> len_method p ->
  IntervalExchangeTransformation perm lengths = Raise (ValueError "bad number of lengths").
Proof.
  intros Hf Hp Hl Hn. rewrite (iet_after_resolution perm lengths p l Hf Hp Hl).
  apply Nat.eqb_neq in Hn. now rewrite Hn.
Qed.

(** X18. The loop over the lengths stops at the first entry that is not
    accepted and raises for that entry: the [TypeError] "unable to convert X
    to a float" when [float] raises a [ValueError], the exception of [float]
    itself when it raises another one, "lengths must be positive" when the
    value is zero or negative; the entries after it are not looked at. *)
Lemma check_lengths_first_rejected (pre post : list length_value) (x : length_value) :
  forallb accepted pre = true -> accepted x = false ->
  check_lengths (pre ++ x :: post) = Raise (rejection x).
Proof.
  induction pre as [|y pre IH]; cbn [forallb app check_lengths]; intros Hpre Hx.
  - unfold accepted, rejection in *. destruct (lv_float x) as [y|[m|m|m]]; try reflexivity.
    apply negb_false_iff in Hx. now rewrite Hx.
  - apply andb_true_iff in Hpre. destruct Hpre as [Hy Hpre].
    unfold accepted in Hy. destruct (lv_float y) as [z|e]; [|discriminate].
    apply negb_true_iff in Hy. rewrite Hy. now apply IH.
Qed.

Lemma check_lengths_all_accepted (l : list length_value) :
  check_lengths l = Return tt <-> forallb accepted l = true.
Proof.
  induction l as [|x l IH]; cbn [forallb check_lengths]; [tauto|].
  unfold accepted at 1. destruct (lv_float x) as [y|[m|m|m]]; cbn [andb negb];
    try (split; discriminate).
  destruct (nonpositive y); cbn [negb andb]; [split; discriminate|exact IH].
Qed.

(** A float is accepted when it is strictly positive, and also when it is
    not a number. *)
Lemma nonpositive_false (y : spec_float) :
  nonpositive y = false <-> strictly_positive y = true \/ y = S754_nan.
Proof.
  unfold nonpositive, strictly_positive.
  destruct y as [s|s| |s m e]; try destruct s; cbn; split; intros H;
    try discriminate; auto; destruct H; discriminate.
Qed.

(** X19. Once the permutation and the vector of lengths are resolved, the
    transformation on them is returned exactly when the vector has as many
    entries as the permutation has letters and every entry is accepted by the
    loop over the lengths. *)
Lemma iet_built (perm : perm_arg) (lengths : lengths_arg)
    (p : permutation) (l : list length_value) :
  flipped_arg perm = false ->
  as_labelled perm = Return p ->
  resolve_lengths p lengths = Return l ->
  (IntervalExchangeTransformation perm lengths = Return (mk_iet p l)
   <-> List.length l = len_method p /\ forallb accepted l = true).
Proof.
  intros Hf Hp Hl. rewrite (iet_after_resolution perm lengths p l Hf Hp Hl).
  destruct (Nat.eqb (List.length l) (len_method p)) eqn:E; cbn [negb].
  - apply Nat.eqb_eq in E. rewrite <- check_lengths_all_accepted.
    destruct (check_lengths l) as [[]|e|c]; cbn [bind]; split;
      intros H; try discriminate; try tauto; destruct H; discriminate.
  - apply Nat.eqb_neq in E. split; [discriminate|tauto].
Qed.

(** A generalized permutation object is copied through: its three letters
    ask for three lengths. *)
Example iet_generalized_object :
  let p := mk_permutation LabelledPermutationLI
             ([PyStr "a"; PyStr "a"], [PyStr "b"; PyStr "b"; PyStr "c"; PyStr "c"]) None [] in
  IntervalExchangeTransformation (PObject p)
    (LengthsSeq [number "1" (float_pos 0); number "1" (float_pos 0)])
  = Raise (ValueError "bad number of lengths")
  /\ IntervalExchangeTransformation (PObject p)
       (LengthsSeq [number "1" (float_pos 0); number "1" (float_pos 0); number "2" (float_pos 1)])
     = Return (mk_iet p [number "1" (float_pos 0); number "1" (float_pos 0);
                         number "2" (float_pos 1)]).
Proof. split; reflexivity. Qed.

(** C7, at the failing input.  The lengths [0.5, nan, 2] for the permutation
    on [a b c] and [c b a]: the second length is not strictly positive, the
    test [y <= 0] is false on it, and the transformation is built. *)
Theorem iet_accepts_nan :
  strictly_positive S754_nan = false
  /\ IntervalExchangeTransformation abc_cba
       (LengthsSeq [number "0.5" (float_pos (-1)); number "nan" S754_nan;
                    number "2.0" (float_pos 1)])
     = Return (mk_iet
         (mk_permutation LabelledPermutationIET
            ([PyStr "a"; PyStr "b"; PyStr "c"], [PyStr "c"; PyStr "b"; PyStr "a"]) None [])
         [number "0.5" (float_pos (-1)); number "nan" S754_nan; number "2.0" (float_pos 1)]).
Proof. split; reflexivity. Qed.


(** * Further properties *)

(** ** Rows written as text *)

Lemma occurrences_app (c : ascii) (s t : string) :
  occurrences c (s ++ t)%string = occurrences c s + occurrences c t.
Proof.
  induction s as [|d s IH]; [reflexivity|].
  cbn [append occurrences]. rewrite IH. lia.
Qed.

Lemma no_space_no_occurrence (c : ascii) (t : string) :
  is_space c = true -> all_chars (fun d => negb (is_space d)) t = true ->
  occurrences c t = 0.
Proof.
  intros Hc. induction t as [|d t IH]; [reflexivity|].
  cbn [all_chars occurrences]. intros H. apply andb_true_iff in H. destruct H as [Hd Ht].
  rewrite (IH Ht). destruct (Ascii.eqb d c) eqn:E; [|reflexivity].
  apply Ascii.eqb_eq in E. subst d. rewrite Hc in Hd. discriminate.
Qed.

Lemma join_tokens_one_line (ts : list string) :
  forallb is_token ts = true -> occurrences newline (join " " ts) = 0.
Proof.
  induction ts as [|t r IH]; [reflexivity|].
  cbn [forallb]. intros H. apply andb_true_iff in H. destruct H as [Ht Hr].
  unfold is_token in Ht. apply andb_true_iff in Ht. destruct Ht as [_ Ht].
  pose proof (no_space_no_occurrence newline t eq_refl Ht) as H0.
  destruct r as [|u r']; [exact H0|].
  change (join " " (t :: u :: r')) with (t ++ String " " (join " " (u :: r')))%string.
  rewrite occurrences_app. cbn [occurrences]. rewrite H0, (IH Hr). reflexivity.
Qed.

(** X1. Rows of tokens written as text are read back: the two rows joined by
    spaces, given as one string with a line feed between them or as a pair of
    strings, normalise to the rows themselves. *)
Theorem rows_text_round_trip (r0 r1 : list string) :
  forallb is_token r0 = true -> forallb is_token r1 = true ->
  _two_lists (PyStr (rows_text r0 r1)) = Return (map PyStr r0, map PyStr r1)
  /\ _two_lists (PySeq [PyStr (join " " r0); PyStr (join " " r1)])
     = Return (map PyStr r0, map PyStr r1).
Proof.
  intros H0 H1. split.
  - unfold rows_text. cbn [_two_lists].
    rewrite (split_on_app newline _ _ (join_tokens_one_line r0 H0)).
    rewrite (split_on_none newline _ (join_tokens_one_line r1 H1)).
    now rewrite (split_ws_join r0 H0), (split_ws_join r1 H1).
  - cbn. now rewrite (split_ws_join r0 H0), (split_ws_join r1 H1).
Qed.

Lemma rows_text_round_trip_witness :
  _two_lists (PyStr (rows_text ["a"; "b"; "c"] ["c"; "b"; "a"]))
  = Return (map PyStr ["a"; "b"; "c"], map PyStr ["c"; "b"; "a"])
  /\ _two_lists (PySeq [PyStr (join " " ["a"; "b"; "c"]); PyStr (join " " ["c"; "b"; "a"])])
     = Return (map PyStr ["a"; "b"; "c"], map PyStr ["c"; "b"; "a"]).
Proof.
  apply (rows_text_round_trip ["a"; "b"; "c"] ["c"; "b"; "a"]); reflexivity.
Defined.

(** ** One-line permutations *)

Lemma count_NoDup (l : list pyval) (x : pyval) :
  NoDup l -> In x l -> count l x = 1.
Proof.
  intros Hn Hx. unfold count.
  exact (proj1 (NoDup_count_occ' pyval_eq_dec l) Hn x Hx).
Qed.

Lemma range1_NoDup (n : nat) : NoDup (range1 n).
Proof.
  unfold range1. apply Injective_map_NoDup; [|apply seq_NoDup].
  intros i j H. injection H as H. now apply Nat2Z.inj.
Qed.

Lemma range1_In (n : nat) (x : pyval) :
  In x (range1 n) <-> exists z, x = PyInt z /\ (1 <= z <= Z.of_nat n)%Z.
Proof.
  unfold range1. rewrite in_map_iff. split.
  - intros (i & <- & Hi). apply in_seq in Hi. exists (Z.of_nat i). split; [reflexivity|lia].
  - intros (z & -> & Hz). exists (Z.to_nat z). split.
    + f_equal. lia.
    + apply in_seq. lia.
Qed.

(** X2. A one-line permutation of [1..n] is accepted by the exchange factory,
    alone or wrapped in a container of length one: the factory returns the
    labelled permutation whose top row is [1, ..., n] and whose bottom row is
    the permutation. *)
Theorem one_line_permutation_builds (p : list Z) :
  one_line p ->
  Permutation (ArgValues [PyPerm p]) no_options
  = Return (mk_permutation LabelledPermutationIET
              (range1 (List.length p), map PyInt p) None [])
  /\ Permutation (ArgValues [PySeq [PyPerm p]]) no_options
     = Permutation (ArgValues [PyPerm p]) no_options.
Proof.
  intros [Hn Hin]. split; [|reflexivity].
  assert (Hn1 : NoDup (map PyInt p)).
  { apply Injective_map_NoDup; [|exact Hn]. intros i j H. now injection H. }
  assert (Hsame : forall x, In x (range1 (List.length p)) <-> In x (map PyInt p)).
  { intros x. rewrite range1_In, in_map_iff. split.
    - intros (z & -> & Hz). exists z. split; [reflexivity|now apply Hin].
    - intros (z & <- & Hz). exists z. split; [reflexivity|now apply Hin]. }
  destruct (exchange_fresh_builds [PyPerm p] no_options None []
              (range1 (List.length p), map PyInt p) eq_refl eq_refl eq_refl)
    as (q & Hq & Hkind & Hred & Hflip & Hrows & Halph & Hflips).
  - intros x [].
  - cbn [fst snd]. intros x Hx. apply in_app_or in Hx.
    split; apply count_NoDup; try apply range1_NoDup; try exact Hn1;
      destruct Hx as [Hx|Hx]; try exact Hx; now apply Hsame.
  - rewrite Hq. f_equal. destruct q as [c rows al fl]. cbn in *. subst.
    f_equal. destruct c; cbn in *; try discriminate; reflexivity.
Qed.

Lemma one_line_permutation_builds_witness :
  Permutation (ArgValues [PyPerm [3; 2; 1]%Z]) no_options
  = Return (mk_permutation LabelledPermutationIET
              ([PyInt 1; PyInt 2; PyInt 3], [PyInt 3; PyInt 2; PyInt 1]) None []).
Proof.
  refine (proj1 (one_line_permutation_builds [3; 2; 1]%Z _)).
  split.
  - repeat constructor; cbn; intuition discriminate.
  - intros z. cbn. lia.
Defined.

(** ** What a returned permutation satisfies *)

Lemma check_flips_inv (e : exn) (flips l : list pyval) :
  check_flips e flips (set_of l) = Return tt -> forall x, In x flips -> In x l.
Proof.
  intros H x Hx. destruct (in_dec pyval_eq_dec x l) as [Hin|Hn]; [exact Hin|].
  rewrite (check_flips_bad e flips l x Hx Hn) in H. discriminate.
Qed.

Lemma check_once_inv (a : list pyval * list pyval) (l : list pyval) :
  check_once a (set_of l) = Return tt ->
  forall x, In x l -> count (fst a) x = 1 /\ count (snd a) x = 1.
Proof.
  intros H x Hx.
  destruct (Nat.eq_dec (count (fst a) x) 1) as [E0|E0],
           (Nat.eq_dec (count (snd a) x) 1) as [E1|E1]; [tauto| | |];
    rewrite (check_once_bad a l x Hx) in H; try discriminate; tauto.
Qed.

(** What a successful call of the exchange factory on fresh input went
    through. *)
Lemma Permutation_fresh_inv (args : list pyval) (kargs : kwargs) (p : permutation) :
  Permutation (ArgValues args) kargs = Return p ->
  exists reduction flips a,
    get_reduced None kargs = Return reduction
    /\ get_flips kargs = Return flips
    /\ _two_lists (unwrap args) = Return a
    /\ (forall x, In x flips -> In x (fst a ++ snd a))
    /\ (forall x, In x (fst a ++ snd a) -> count (fst a) x = 1 /\ count (snd a) x = 1)
    /\ p = mk_permutation
             (chosen ReducedPermutationIET FlippedReducedPermutationIET
                     LabelledPermutationIET FlippedLabelledPermutationIET reduction flips)
             a (kw_alphabet kargs) flips.
Proof.
  unfold Permutation.
  destruct (get_reduced None kargs) as [reduction|e|c] eqn:Hr; cbn [bind]; try discriminate.
  destruct (get_flips kargs) as [flips|e|c] eqn:Hf; cbn [bind]; try discriminate.
  destruct (_two_lists (unwrap args)) as [a|e|c] eqn:Ha; cbn [bind]; try discriminate.
  destruct (check_flips _ flips _) as [[]|e|c] eqn:Hcf; cbn [bind]; try discriminate.
  destruct (check_once a _) as [[]|e|c] eqn:Hco; cbn [bind]; try discriminate.
  rewrite dispatch_returns. intros H. injection H as <-.
  exists reduction, flips, a. repeat split; auto.
  - exact (check_flips_inv _ _ _ Hcf).
  - now apply (check_once_inv a _ Hco).
  - now apply (check_once_inv a _ Hco).
Qed.

(** What a successful call of the generalized factory on fresh input went
    through before the residual rows are looked at. *)
Lemma GeneralizedPermutation_fresh_inv (args : list pyval) (kargs : kwargs)
    (p : permutation) :
  GeneralizedPermutation (ArgValues args) kargs = Return p ->
  exists reduction flips a,
    get_reduced None kargs = Return reduction
    /\ get_flips kargs = Return flips
    /\ _two_lists (unwrap args) = Return a
    /\ (forall x, In x flips -> In x (fst a ++ snd a))
    /\ (forall x, In x (fst a ++ snd a) -> count (fst a ++ snd a) x = 2).
Proof.
  unfold GeneralizedPermutation.
  destruct (get_reduced None kargs) as [reduction|e|c] eqn:Hr; cbn [bind]; try discriminate.
  destruct (get_reduced_again kargs reduction Hr) as (r' & Hr' & _). rewrite Hr'.
  destruct (get_flips kargs) as [flips|e|c] eqn:Hf; cbn [bind]; try discriminate.
  destruct (_two_lists (unwrap args)) as [a|e|c] eqn:Ha; cbn [bind]; try discriminate.
  destruct (check_flips _ flips _) as [[]|e|c] eqn:Hcf; cbn [bind]; try discriminate.
  destruct (check_twice _ _) as [[]|e|c] eqn:Hct; cbn [bind]; try discriminate.
  intros _. exists reduction, flips, a. repeat split; auto.
  - exact (check_flips_inv _ _ _ Hcf).
  - exact (check_twice_inv _ Hct).
Qed.

Lemma count_pos_In (l : list pyval) (x : pyval) : In x l <-> count l x > 0.
Proof. apply count_occ_In. Qed.

Lemma count_zero_not_In (l : list pyval) (x : pyval) : ~ In x l <-> count l x = 0.
Proof. apply count_occ_not_In. Qed.

(** Under the check on the total, the top residual row is not empty exactly
    when some letter is twice in the top row, and likewise at the bottom. *)
Lemma residual_fst_not_nil (a : list pyval * list pyval) :
  (forall x, In x (fst a ++ snd a) -> count (fst a ++ snd a) x = 2) ->
  (fst (residual a) <> [] <-> exists x, count (fst a) x = 2).
Proof.
  intros H. unfold residual. cbn [fst]. split.
  - intros Hne. destruct (filter _ (fst a)) as [|x r] eqn:E; [now destruct Hne|].
    assert (Hx : In x (filter (fun x => negb (once_in (fst a) x)) (fst a)))
      by (rewrite E; now left).
    apply filter_In in Hx. destruct Hx as [Hx Ho].
    apply negb_true_iff, Nat.eqb_neq in Ho.
    exists x. pose proof (proj1 (count_pos_In _ _) Hx).
    specialize (H x (in_or_app _ _ _ (or_introl Hx))). rewrite count_app in H. lia.
  - intros (x & Hx) Hnil.
    assert (Hin : In x (fst a)) by (apply count_pos_In; lia).
    assert (Ho : negb (once_in (fst a) x) = true)
      by (apply negb_true_iff, Nat.eqb_neq; lia).
    rewrite (filter_nil_inv _ _ Hnil x Hin) in Ho. discriminate.
Qed.

Lemma residual_snd_not_nil (a : list pyval * list pyval) :
  (forall x, In x (fst a ++ snd a) -> count (fst a ++ snd a) x = 2) ->
  (snd (residual a) <> [] <-> exists y, count (snd a) y = 2).
Proof.
  intros H. unfold residual. cbn [snd]. split.
  - intros Hne. destruct (filter _ (snd a)) as [|y r] eqn:E; [now destruct Hne|].
    assert (Hy : In y (filter (fun x => negb (once_in (fst a) x)) (snd a)))
      by (rewrite E; now left).
    apply filter_In in Hy. destruct Hy as [Hy Ho].
    apply negb_true_iff, Nat.eqb_neq in Ho.
    exists y. pose proof (proj1 (count_pos_In _ _) Hy).
    specialize (H y (in_or_app _ _ _ (or_intror Hy))). rewrite count_app in H. lia.
  - intros (y & Hy) Hnil.
    assert (Hin : In y (snd a)) by (apply count_pos_In; lia).
    specialize (H y (in_or_app _ _ _ (or_intror Hin))). rewrite count_app in H.
    assert (Ho : negb (once_in (fst a) y) = true)
      by (apply negb_true_iff, Nat.eqb_neq; lia).
    rewrite (filter_nil_inv _ _ Hnil y Hin) in Ho. discriminate.
Qed.

Lemma is_nil_false {A : Type} (l : list A) : l <> [] -> is_nil l = false.
Proof. destruct l; [now intros []|reflexivity]. Qed.

Lemma is_nil_true {A : Type} (l : list A) : is_nil l = true -> l = [].
Proof. destruct l; [reflexivity|discriminate]. Qed.

(** X3. On fresh input whose flips are valid and where every letter is twice
    in the concatenation of the rows, a letter twice in the top row together
    with a letter twice in the bottom row makes the generalized factory return
    a generalized permutation on the rows, reduced when [reduced] is true and
    flipped when there are flips. *)
Theorem generalized_builds (args : list pyval) (kargs : kwargs)
    (reduction : option bool) (flips : list pyval) (a : list pyval * list pyval) :
  get_reduced None kargs = Return reduction ->
  get_flips kargs = Return flips ->
  _two_lists (unwrap args) = Return a ->
  (forall x, In x flips -> In x (fst a ++ snd a)) ->
  (forall x, In x (fst a ++ snd a) -> count (fst a ++ snd a) x = 2) ->
  (exists x, count (fst a) x = 2) ->
  (exists y, count (snd a) y = 2) ->
  exists p, GeneralizedPermutation (ArgValues args) kargs = Return p
    /\ kind_of (p_class p) = Generalized
    /\ reduction_of (p_class p) = (if truthy reduction then Reduced else Labelled)
    /\ is_flipped (p_class p) = negb (is_nil flips)
    /\ p_intervals p = a /\ p_alphabet p = kw_alphabet kargs /\ p_flips p = flips.
Proof.
  intros Hr Hf Ha Hfl Htw H0 H1.
  rewrite (GeneralizedPermutation_fresh args kargs reduction flips a Hr Hf Ha Hfl Htw).
  rewrite (is_nil_false _ (proj2 (residual_fst_not_nil a Htw) H0)).
  rewrite (is_nil_false _ (proj2 (residual_snd_not_nil a Htw) H1)).
  cbn [andb orb]. eexists. split; [reflexivity|].
  cbn [p_class p_intervals p_alphabet p_flips].
  destruct (chosen_generalized reduction flips) as (K1 & K2 & K3).
  repeat split; assumption || reflexivity.
Qed.

Lemma generalized_builds_witness :
  exists p, GeneralizedPermutation (args2 "a a" "b b c c") reduced_true = Return p
    /\ kind_of (p_class p) = Generalized
    /\ reduction_of (p_class p) = Reduced
    /\ is_flipped (p_class p) = false
    /\ p_intervals p = ([PyStr "a"; PyStr "a"], [PyStr "b"; PyStr "b"; PyStr "c"; PyStr "c"])
    /\ p_alphabet p = None /\ p_flips p = [].
Proof.
  apply (generalized_builds [PyStr "a a"; PyStr "b b c c"] reduced_true (Some true) []
           ([PyStr "a"; PyStr "a"], [PyStr "b"; PyStr "b"; PyStr "c"; PyStr "c"])
           eq_refl eq_refl eq_refl ltac:(each_letter) ltac:(each_letter)).
  - exists (PyStr "a"). reflexivity.
  - exists (PyStr "b"). reflexivity.
Defined.

Lemma list_sum_step (a : nat) (b : list nat) : list_sum (a :: b) = a + list_sum b.
Proof. reflexivity. Qed.

Lemma list_sum_count_cons (x : pyval) (l m : list pyval) :
  NoDup m ->
  list_sum (map (count (x :: l)) m)
  = list_sum (map (count l) m) + (if is_in x m then 1 else 0).
Proof.
  induction m as [|y m IH]; intros Hn; [reflexivity|].
  inversion Hn as [|? ? Hy Hm]; subst.
  cbn [map]. rewrite !list_sum_step, (IH Hm), count_cons, is_in_cons.
  destruct (py_eqb x y) eqn:E.
  - apply py_eqb_eq in E. subst y.
    apply is_in_not_In in Hy. rewrite Hy. cbn [orb]. lia.
  - cbn [orb]. destruct (is_in x m); lia.
Qed.

(** The length of a list is the sum, over its distinct letters, of the number
    of times each occurs. *)
Lemma length_sum_counts (l : list pyval) :
  List.length l = list_sum (map (count l) (set_of l)).
Proof.
  induction l as [|x l IH]; [reflexivity|].
  unfold set_of in *. cbn [nodup List.length].
  destruct (in_dec pyval_eq_dec x l) as [Hin|Hn].
  - rewrite (list_sum_count_cons x l _ (NoDup_nodup pyval_eq_dec l)), <- IH.
    assert (E : is_in x (nodup pyval_eq_dec l) = true)
      by (apply is_in_In, nodup_In, Hin).
    rewrite E. lia.
  - cbn [map]. rewrite list_sum_step.
    rewrite (list_sum_count_cons x l _ (NoDup_nodup pyval_eq_dec l)), <- IH.
    assert (E : is_in x (nodup pyval_eq_dec l) = false)
      by (apply is_in_not_In; rewrite nodup_In; exact Hn).
    rewrite E, count_cons, py_eqb_refl.
    apply count_zero_not_In in Hn. rewrite Hn. lia.
Qed.

Lemma uniform_count_length (k : nat) (l : list pyval) :
  (forall x, In x l -> count l x = k) ->
  List.length l = k * List.length (set_of l).
Proof.
  intros H. rewrite (length_sum_counts l) at 1.
  assert (E : forall m, (forall x, In x m -> In x l) ->
            list_sum (map (count l) m) = k * List.length m).
  { induction m as [|y m IH]; intros Hm; cbn [map List.length]; [cbn; lia|].
    rewrite list_sum_step, (H y (Hm y (or_introl eq_refl))), IH; [lia|].
    intros x Hx. apply Hm. now right. }
  apply E. intros x Hx. now apply set_of_In.
Qed.

Lemma once_NoDup (row l : list pyval) :
  (forall x, In x l -> count row x = 1) -> (forall x, In x row -> In x l) -> NoDup row.
Proof.
  intros H Hsub. apply (NoDup_count_occ' pyval_eq_dec). intros x Hx.
  exact (H x (Hsub x Hx)).
Qed.

(** The rows of a permutation returned by the exchange factory on fresh
    input: no repeated letter at the top, and two rows of the same length. *)
Lemma exchange_rows_NoDup (args : list pyval) (kargs : kwargs) (p : permutation) :
  Permutation (ArgValues args) kargs = Return p ->
  NoDup (fst (p_intervals p))
  /\ List.length (fst (p_intervals p)) = List.length (snd (p_intervals p)).
Proof.
  intros H.
  destruct (Permutation_fresh_inv args kargs p H)
    as (reduction & flips & a & _ & _ & _ & _ & Honce & ->).
  cbn [p_intervals].
  assert (N0 : NoDup (fst a)).
  { apply (once_NoDup _ (fst a ++ snd a)); [intros x Hx; now apply Honce|].
    intros x Hx. apply in_or_app. now left. }
  assert (N1 : NoDup (snd a)).
  { apply (once_NoDup _ (fst a ++ snd a)); [intros x Hx; now apply Honce|].
    intros x Hx. apply in_or_app. now right. }
  split; [exact N0|].
  apply Nat.le_antisymm; apply NoDup_incl_length; try assumption; intros x Hx;
    apply count_pos_In.
  - destruct (Honce x (in_or_app _ _ _ (or_introl Hx))) as [_ E]. lia.
  - destruct (Honce x (in_or_app _ _ _ (or_intror Hx))) as [E _]. lia.
Qed.

(** X4. A permutation returned by the exchange factory on fresh input is of
    an exchange class, its two rows have no repeated letter, hold the same
    letters and have the same length, and its flips are letters of the rows;
    it is of a flipped class exactly when it has flips. *)
Theorem exchange_rows_invariant (args : list pyval) (kargs : kwargs) (p : permutation) :
  Permutation (ArgValues args) kargs = Return p ->
  kind_of (p_class p) = Exchange
  /\ NoDup (fst (p_intervals p)) /\ NoDup (snd (p_intervals p))
  /\ (forall x, In x (fst (p_intervals p)) <-> In x (snd (p_intervals p)))
  /\ List.length (fst (p_intervals p)) = List.length (snd (p_intervals p))
  /\ (forall x, In x (p_flips p) -> In x (fst (p_intervals p)))
  /\ is_flipped (p_class p) = negb (is_nil (p_flips p)).
Proof.
  intros H.
  destruct (Permutation_fresh_inv args kargs p H)
    as (reduction & flips & a & _ & _ & _ & Hfl & Honce & ->).
  cbn [p_class p_intervals p_flips].
  destruct (chosen_exchange reduction flips) as (K1 & _ & K3).
  assert (N0 : NoDup (fst a)).
  { apply (once_NoDup _ (fst a ++ snd a)); [intros x Hx; now apply Honce|].
    intros x Hx. apply in_or_app. now left. }
  assert (N1 : NoDup (snd a)).
  { apply (once_NoDup _ (fst a ++ snd a)); [intros x Hx; now apply Honce|].
    intros x Hx. apply in_or_app. now right. }
  assert (Hsame : forall x, In x (fst a) <-> In x (snd a)).
  { intros x. split; intros Hx.
    - apply count_pos_In.
      destruct (Honce x (in_or_app _ _ _ (or_introl Hx))) as [_ E]. lia.
    - apply count_pos_In.
      destruct (Honce x (in_or_app _ _ _ (or_intror Hx))) as [E _]. lia. }
  repeat split; try assumption; try (now apply Hsame).
  - apply Nat.le_antisymm; apply NoDup_incl_length; try assumption;
      intros x Hx; now apply Hsame.
  - intros x Hx. specialize (Hfl x Hx). apply in_app_or in Hfl.
    destruct Hfl as [Hx0|Hx1]; [exact Hx0|now apply Hsame].
Qed.

Lemma exchange_rows_invariant_witness :
  NoDup [PyStr "a"; PyStr "b"; PyStr "c"]
  /\ List.length [PyStr "a"; PyStr "b"; PyStr "c"] = List.length [PyStr "c"; PyStr "b"; PyStr "a"].
Proof.
  destruct (exchange_rows_invariant [PyStr "a b c"; PyStr "c b a"] no_options
              (mk_permutation LabelledPermutationIET
                 ([PyStr "a"; PyStr "b"; PyStr "c"], [PyStr "c"; PyStr "b"; PyStr "a"])
                 None []) eq_refl)
    as (_ & N0 & _ & _ & L & _).
  split; [exact N0|exact L].
Defined.

(** X5. A permutation returned by the generalized factory on fresh input has
    every letter exactly twice in the concatenation of its rows, so that the
    rows hold twice as many positions as there are letters, and its flips are
    letters of the rows.  It is either of an exchange class, with every letter
    once in each row, or of a generalized class, with a letter twice in the
    top row and a letter twice in the bottom row. *)
Theorem generalized_rows_invariant (args : list pyval) (kargs : kwargs) (p : permutation) :
  GeneralizedPermutation (ArgValues args) kargs = Return p ->
  (forall x, In x (fst (p_intervals p) ++ snd (p_intervals p)) ->
             count (fst (p_intervals p) ++ snd (p_intervals p)) x = 2)
  /\ List.length (fst (p_intervals p)) + List.length (snd (p_intervals p))
     = 2 * List.length (set_of (fst (p_intervals p) ++ snd (p_intervals p)))
  /\ (forall x, In x (p_flips p) -> In x (fst (p_intervals p) ++ snd (p_intervals p)))
  /\ ((kind_of (p_class p) = Exchange
       /\ forall x, In x (fst (p_intervals p) ++ snd (p_intervals p)) ->
                    count (fst (p_intervals p)) x = 1 /\ count (snd (p_intervals p)) x = 1)
      \/ (kind_of (p_class p) = Generalized
          /\ (exists x, count (fst (p_intervals p)) x = 2)
          /\ (exists y, count (snd (p_intervals p)) y = 2))).
Proof.
  intros H.
  destruct (GeneralizedPermutation_fresh_inv args kargs p H)
    as (reduction & flips & a & Hr & Hf & Ha & Hfl & Htw).
  rewrite (GeneralizedPermutation_fresh args kargs reduction flips a Hr Hf Ha Hfl Htw) in H.
  assert (Hp : p_intervals p = a /\ p_flips p = flips
               /\ ((kind_of (p_class p) = Exchange
                    /\ forall x, In x (fst a ++ snd a) ->
                                 count (fst a) x = 1 /\ count (snd a) x = 1)
                   \/ (kind_of (p_class p) = Generalized
                       /\ (exists x, count (fst a) x = 2)
                       /\ (exists y, count (snd a) y = 2)))).
  { destruct (is_nil (fst (residual a))) eqn:E0, (is_nil (snd (residual a))) eqn:E1;
      cbn [andb orb] in H; try discriminate.
    - assert (Hres : residual a = ([], [])).
      { apply is_nil_true in E0, E1. destruct (residual a); cbn in *; congruence. }
      pose proof (residual_nil_once a Htw Hres) as Honce.
      destruct (exchange_fresh_builds [rows_value a] kargs reduction flips a Hr Hf
                  (two_lists_rows_value a) Hfl Honce)
        as (q & Hq & K1 & _ & _ & K4 & _ & K6).
      rewrite Hq in H. injection H as <-. auto.
    - injection H as <-. cbn [p_class p_intervals p_flips].
      destruct (chosen_generalized reduction flips) as (K1 & _ & _).
      split; [reflexivity|]. split; [reflexivity|]. right. split; [exact K1|]. split.
      + apply (residual_fst_not_nil a Htw). intros F. rewrite F in E0. discriminate.
      + apply (residual_snd_not_nil a Htw). intros F. rewrite F in E1. discriminate. }
  destruct Hp as (Hrows & Hflips & Hkind). rewrite Hrows, Hflips.
  split; [exact Htw|]. split; [|split; [exact Hfl|exact Hkind]].
  rewrite <- length_app. now apply uniform_count_length.
Qed.

Lemma generalized_rows_invariant_witness :
  List.length [PyStr "a"; PyStr "b"; PyStr "b"] + List.length [PyStr "c"; PyStr "c"; PyStr "a"]
  = 2 * List.length (set_of ([PyStr "a"; PyStr "b"; PyStr "b"] ++ [PyStr "c"; PyStr "c"; PyStr "a"])).
Proof.
  destruct (generalized_rows_invariant [PyStr "a b b"; PyStr "c c a"] no_options
              (mk_permutation LabelledPermutationLI
                 ([PyStr "a"; PyStr "b"; PyStr "b"], [PyStr "c"; PyStr "c"; PyStr "a"])
                 None []) eq_refl)
    as (_ & L & _).
  exact L.
Defined.

(** ** Existing objects *)

Lemma reduced_method_class (p q : permutation) :
  reduction_of (p_class p) = Labelled -> reduced_method p = Return q ->
  reduction_of (p_class q) = Reduced.
Proof.
  unfold reduced_method. intros Hl H. injection H as <-. cbn [p_class].
  destruct (p_class p); cbn in *; congruence.
Qed.

(** X7. Converting with no flips is idempotent: when the exchange factory,
    given an existing object and keywords without flips, returns an object,
    the factory given that object and the same keywords returns it again. *)
Theorem conversion_idempotent (p q : permutation) (kargs : kwargs) :
  get_flips kargs = Return [] ->
  Permutation (ArgObject p) kargs = Return q ->
  Permutation (ArgObject q) kargs = Return q.
Proof.
  intros Hf. unfold Permutation. rewrite Hf.
  destruct (get_reduced None kargs) as [reduction|e|c]; cbn [bind]; try discriminate.
  destruct (reduction_of (p_class p)) eqn:Ep.
  - rewrite (convert_labelled_no_flips _ p reduction _ Ep).
    destruct reduction as [[|]|]; intros H.
    + rewrite (convert_reduced_no_flips _ q (Some true) _ (reduced_method_class p q Ep H)).
      reflexivity.
    + injection H as <-. now rewrite (convert_labelled_no_flips _ p (Some false) _ Ep).
    + injection H as <-. now rewrite (convert_labelled_no_flips _ p None _ Ep).
  - rewrite (convert_reduced_no_flips _ p reduction _ Ep).
    destruct reduction as [[|]|]; intros H; try discriminate;
      injection H as <-; now rewrite (convert_reduced_no_flips _ p _ _ Ep).
Qed.

Lemma conversion_idempotent_witness :
  Permutation (ArgObject reduced_ab_ba) reduced_true = Return reduced_ab_ba.
Proof.
  apply (conversion_idempotent
           (mk_permutation LabelledPermutationIET
              ([PyStr "a"; PyStr "b"], [PyStr "b"; PyStr "a"]) None [])
           reduced_ab_ba reduced_true); reflexivity.
Defined.

(** ** The exceptions of the factories *)

Ltac listed := cbn; repeat (first [left; reflexivity | right]).

Lemma two_rows_raises (l : list pyval) (e : exn) :
  two_rows l = Raise e -> In e two_lists_errors.
Proof.
  destruct l as [|x [|y [|z r]]]; cbn [two_rows]; intros H;
    try (injection H as <-; listed).
  destruct x as [s|z|p|l0], y as [t|w|q|l1]; cbn in H;
    try discriminate; injection H as <-; listed.
Qed.

Lemma two_lists_raises (x : pyval) (e : exn) :
  _two_lists x = Raise e -> In e two_lists_errors.
Proof.
  destruct x as [s|z|p|l]; cbn [_two_lists].
  - destruct (split_on newline s) as [|l0 [|l1 [|l2 r]]]; intros H;
      try discriminate; injection H as <-; listed.
  - intros H. injection H as <-. listed.
  - discriminate.
  - destruct l as [|x [|y [|z r]]].
    + intros H. injection H as <-. listed.
    + destruct x as [s|z|p|l0]; try (intros H; injection H as <-; listed);
        [discriminate|apply two_rows_raises].
    + apply two_rows_raises.
    + intros H. injection H as <-. listed.
Qed.

Lemma get_reduced_raises (d : option bool) (kargs : kwargs) (e : exn) :
  get_reduced d kargs = Raise e -> In e option_errors.
Proof.
  unfold get_reduced. destruct (kw_reduced kargs) as [[b|v]|]; intros H;
    try discriminate. injection H as <-. listed.
Qed.

Lemma get_flips_raises (kargs : kwargs) (e : exn) :
  get_flips kargs = Raise e -> In e option_errors.
Proof.
  unfold get_flips. destruct (kw_flips kargs) as [[s|z|p|l]|]; cbn; intros H;
    try discriminate. injection H as <-. listed.
Qed.

Lemma convert_never_raises (t : template_class) (p : permutation)
    (reduction : option bool) (flips : list pyval)
    (alphabet : option (list pyval)) (e : exn) :
  convert t p reduction flips alphabet <> Raise e.
Proof.
  unfold convert, copy, reduced_method.
  destruct (reduction_of (p_class p)), (is_nil flips), reduction as [[|]|];
    discriminate.
Qed.

Lemma guard_result {A : Type} (bad : A -> bool) (e : exn) (l : list A) :
  for_each l (fun x => if bad x then Raise e else Return tt) = Return tt
  \/ for_each l (fun x => if bad x then Raise e else Return tt) = Raise e.
Proof. rewrite for_each_guard. destruct (existsb bad l); auto. Qed.

Lemma in_errors_app_l (e : exn) (l m : list exn) : In e l -> In e (l ++ m).
Proof. intros H. apply in_or_app. now left. Qed.

Lemma in_errors_app_r (e : exn) (l m : list exn) : In e m -> In e (l ++ m).
Proof. intros H. apply in_or_app. now right. Qed.

(** The exceptions of the exchange factory, shared with the proof for the
    generalized factory. *)
Lemma Permutation_raises_listed (args : arguments) (kargs : kwargs) (e : exn) :
  Permutation args kargs = Raise e -> In e Permutation_errors.
Proof.
  unfold Permutation, Permutation_errors.
  destruct (get_reduced None kargs) as [reduction|e0|c] eqn:Hr; cbn [bind];
    [|intros H; injection H as <-; apply in_errors_app_l;
       exact (get_reduced_raises _ _ _ Hr)|discriminate].
  destruct (get_flips kargs) as [flips|e0|c] eqn:Hf; cbn [bind];
    [|intros H; injection H as <-; apply in_errors_app_l;
       exact (get_flips_raises _ _ Hf)|discriminate].
  destruct args as [p|args].
  - intros H. now destruct (convert_never_raises _ _ _ _ _ _ H).
  - destruct (_two_lists (unwrap args)) as [a|e0|c] eqn:Ha; cbn [bind];
      [|intros H; injection H as <-; apply in_errors_app_r, in_errors_app_l;
         exact (two_lists_raises _ _ Ha)|discriminate].
    unfold check_flips, check_once.
    destruct (guard_result (fun y => negb (is_in y (set_of (fst a ++ snd a))))
                (ValueError "flips contains not valid letters") flips) as [E|E];
      rewrite E; cbn [bind];
      [|intros H; injection H as <-; apply in_errors_app_r, in_errors_app_r; listed].
    destruct (guard_result
                (fun y => negb (Nat.eqb (count (fst a) y) 1)
                          || negb (Nat.eqb (count (snd a) y) 1))
                (ValueError "letters must appear once in each interval")
                (set_of (fst a ++ snd a))) as [F|F];
      rewrite F; cbn [bind];
      [|intros H; injection H as <-; apply in_errors_app_r, in_errors_app_r; listed].
    rewrite dispatch_returns. discriminate.
Qed.

Lemma two_rows_no_template (l : list pyval) (c : template_call) :
  two_rows l <> Template c.
Proof.
  destruct l as [|x [|y [|z r]]]; cbn [two_rows]; try discriminate.
  destruct x as [s|z|p|l0], y as [t|w|q|l1]; discriminate.
Qed.

Lemma two_lists_no_template (x : pyval) (c : template_call) :
  _two_lists x <> Template c.
Proof.
  destruct x as [s|z|p|l]; cbn [_two_lists]; try discriminate.
  - destruct (split_on newline s) as [|l0 [|l1 [|l2 r]]]; discriminate.
  - destruct l as [|x [|y [|z r]]]; try discriminate.
    + destruct x as [s|z|p|l0]; try discriminate. apply two_rows_no_template.
    + apply two_rows_no_template.
Qed.

Lemma get_reduced_no_template (d : option bool) (kargs : kwargs) (c : template_call) :
  get_reduced d kargs <> Template c.
Proof. unfold get_reduced. destruct (kw_reduced kargs) as [[b|v]|]; discriminate. Qed.

Lemma get_flips_no_template (kargs : kwargs) (c : template_call) :
  get_flips kargs <> Template c.
Proof.
  unfold get_flips. destruct (kw_flips kargs) as [[s|z|p|l]|]; discriminate.
Qed.

(** On fresh input the exchange factory calls no template class. *)
Lemma Permutation_fresh_no_template (args : list pyval) (kargs : kwargs)
    (c : template_call) :
  Permutation (ArgValues args) kargs <> Template c.
Proof.
  unfold Permutation.
  destruct (get_reduced None kargs) as [reduction|e0|c0] eqn:Hr; cbn [bind];
    [|discriminate|now destruct (get_reduced_no_template _ _ _ Hr)].
  destruct (get_flips kargs) as [flips|e0|c0] eqn:Hf; cbn [bind];
    [|discriminate|now destruct (get_flips_no_template _ _ Hf)].
  destruct (_two_lists (unwrap args)) as [a|e0|c0] eqn:Ha; cbn [bind];
    [|discriminate|now destruct (two_lists_no_template _ _ Ha)].
  unfold check_flips, check_once.
  destruct (guard_result (fun y => negb (is_in y (set_of (fst a ++ snd a))))
              (ValueError "flips contains not valid letters") flips) as [E|E];
    rewrite E; cbn [bind]; [|discriminate].
  destruct (guard_result
              (fun y => negb (Nat.eqb (count (fst a) y) 1)
                        || negb (Nat.eqb (count (snd a) y) 1))
              (ValueError "letters must appear once in each interval")
              (set_of (fst a ++ snd a))) as [F|F];
    rewrite F; cbn [bind]; [|discriminate].
  rewrite dispatch_returns. discriminate.
Qed.

(** X8. On fresh input whose letters and flips are strings or integers, the
    exchange factory either returns a permutation or raises one of: the two
    errors on the keywords, the five errors of the normaliser, the error on
    flips and the error on letters; it calls no template class. *)
Theorem Permutation_raises (args : list pyval) (kargs : kwargs) :
  atomic_input args kargs ->
  (forall e, Permutation (ArgValues args) kargs = Raise e -> In e Permutation_errors)
  /\ (forall c, Permutation (ArgValues args) kargs <> Template c).
Proof.
  intros _. split.
  - intros e. apply Permutation_raises_listed.
  - intros c. apply Permutation_fresh_no_template.
Qed.

Ltac atomic_at :=
  let H := fresh "H" in
  split; intros ? H; vm_compute in H; injection H as <-; reflexivity.

Lemma Permutation_raises_witness :
  In (ValueError "letters must appear once in each interval") Permutation_errors.
Proof.
  apply (proj1 (Permutation_raises [PyStr "a b c"; PyStr "c a a"] reduced_true
                  ltac:(atomic_at))).
  reflexivity.
Defined.

(** The exceptions of the generalized factory; the error of [index] in the
    loop over the letters is not among them. *)
Lemma GeneralizedPermutation_raises_listed (args : arguments) (kargs : kwargs) (e : exn) :
  GeneralizedPermutation args kargs = Raise e ->
  In e GeneralizedPermutation_errors
  /\ e <> ValueError "list.index(x): x not in list".
Proof.
  intros H.
  assert (Hin : In e GeneralizedPermutation_errors).
  { revert H. unfold GeneralizedPermutation, GeneralizedPermutation_errors.
    destruct (get_reduced None kargs) as [reduction|e0|c] eqn:Hr; cbn [bind];
      [|intros H; injection H as <-; apply in_errors_app_l, in_errors_app_l;
         exact (get_reduced_raises _ _ _ Hr)|discriminate].
    destruct (get_reduced_again kargs reduction Hr) as (r' & Hr' & Ht). rewrite Hr'.
    destruct (get_flips kargs) as [flips|e0|c] eqn:Hf; cbn [bind];
      [|intros H; injection H as <-; apply in_errors_app_l, in_errors_app_l;
         exact (get_flips_raises _ _ Hf)|discriminate].
    destruct args as [p|args].
    - intros H. now destruct (convert_never_raises _ _ _ _ _ _ H).
    - destruct (_two_lists (unwrap args)) as [a|e0|c] eqn:Ha; cbn [bind];
        [|intros H; injection H as <-; apply in_errors_app_l, in_errors_app_r, in_errors_app_l;
           exact (two_lists_raises _ _ Ha)|discriminate].
      destruct (check_flips (TypeError "The flip list is not valid") flips
                  (set_of (fst a ++ snd a))) as [[]|e0|c] eqn:Hcf; cbn [bind].
      + destruct (check_twice (fst a ++ snd a) (set_of (fst a ++ snd a)))
          as [[]|e0|c] eqn:Hct; cbn [bind].
        * rewrite (strip_residual a (check_twice_inv _ Hct)). cbn [bind].
          destruct (is_nil (fst (residual a)) && is_nil (snd (residual a))).
          -- intros H. apply in_errors_app_l. exact (Permutation_raises_listed _ _ _ H).
          -- destruct (is_nil (fst (residual a)) || is_nil (snd (residual a))).
             ++ intros H. injection H as <-. apply in_errors_app_r. listed.
             ++ rewrite dispatch_returns. discriminate.
        * unfold check_twice in Hct.
          destruct (guard_result (fun y => negb (Nat.eqb (count (fst a ++ snd a) y) 2))
                      (ValueError "Letters must reappear twice")
                      (set_of (fst a ++ snd a))) as [E|E];
            rewrite E in Hct; [discriminate|].
          injection Hct as <-. intros H. injection H as <-. apply in_errors_app_r. listed.
        * unfold check_twice in Hct.
          destruct (guard_result (fun y => negb (Nat.eqb (count (fst a ++ snd a) y) 2))
                      (ValueError "Letters must reappear twice")
                      (set_of (fst a ++ snd a))) as [E|E];
            rewrite E in Hct; discriminate.
      + unfold check_flips in Hcf.
        destruct (guard_result (fun y => negb (is_in y (set_of (fst a ++ snd a))))
                    (TypeError "The flip list is not valid") flips) as [E|E];
          rewrite E in Hcf; [discriminate|].
        injection Hcf as <-. intros H. injection H as <-. apply in_errors_app_r. listed.
      + unfold check_flips in Hcf.
        destruct (guard_result (fun y => negb (is_in y (set_of (fst a ++ snd a))))
                    (TypeError "The flip list is not valid") flips) as [E|E];
          rewrite E in Hcf; discriminate. }
  split; [exact Hin|].
  intros ->. revert Hin. vm_compute. intuition discriminate.
Qed.

(** On fresh input the generalized factory calls no template class. *)
Lemma GeneralizedPermutation_fresh_no_template (args : list pyval) (kargs : kwargs)
    (c : template_call) :
  GeneralizedPermutation (ArgValues args) kargs <> Template c.
Proof.
  unfold GeneralizedPermutation.
  destruct (get_reduced None kargs) as [reduction|e0|c0] eqn:Hr; cbn [bind];
    [|discriminate|now destruct (get_reduced_no_template _ _ _ Hr)].
  destruct (get_reduced_again kargs reduction Hr) as (r' & Hr' & Ht). rewrite Hr'.
  destruct (get_flips kargs) as [flips|e0|c0] eqn:Hf; cbn [bind];
    [|discriminate|now destruct (get_flips_no_template _ _ Hf)].
  destruct (_two_lists (unwrap args)) as [a|e0|c0] eqn:Ha; cbn [bind];
    [|discriminate|now destruct (two_lists_no_template _ _ Ha)].
  unfold check_flips.
  destruct (guard_result (fun y => negb (is_in y (set_of (fst a ++ snd a))))
              (TypeError "The flip list is not valid") flips) as [E|E];
    rewrite E; cbn [bind]; [|discriminate].
  destruct (check_twice (fst a ++ snd a) (set_of (fst a ++ snd a)))
    as [[]|e0|c0] eqn:Hct; cbn [bind]; [|discriminate|].
  - rewrite (strip_residual a (check_twice_inv _ Hct)). cbn [bind].
    destruct (is_nil (fst (residual a)) && is_nil (snd (residual a)));
      [apply Permutation_fresh_no_template|].
    destruct (is_nil (fst (residual a)) || is_nil (snd (residual a))); [discriminate|].
    rewrite dispatch_returns. discriminate.
  - unfold check_twice in Hct.
    destruct (guard_result (fun y => negb (Nat.eqb (count (fst a ++ snd a) y) 2))
                (ValueError "Letters must reappear twice")
                (set_of (fst a ++ snd a))) as [F|F];
      rewrite F in Hct; discriminate.
Qed.

(** X9. On fresh input whose letters and flips are strings or integers, the
    generalized factory either returns a permutation or raises one of the
    exceptions of the exchange factory, its own error on flips, the error on
    the total of each letter or the error on admissible lengths; it calls no
    template class, and the error of [index] in the loop over the letters is
    never raised. *)
Theorem GeneralizedPermutation_raises (args : list pyval) (kargs : kwargs) :
  atomic_input args kargs ->
  (forall e, GeneralizedPermutation (ArgValues args) kargs = Raise e ->
     In e GeneralizedPermutation_errors
     /\ e <> ValueError "list.index(x): x not in list")
  /\ (forall c, GeneralizedPermutation (ArgValues args) kargs <> Template c).
Proof.
  intros _. split.
  - intros e. apply GeneralizedPermutation_raises_listed.
  - intros c. apply GeneralizedPermutation_fresh_no_template.
Qed.

Lemma GeneralizedPermutation_raises_witness :
  In (ValueError "There is no admissible length") GeneralizedPermutation_errors.
Proof.
  apply (proj1 (GeneralizedPermutation_raises [PyStr "a a b"; PyStr "b"] no_options
                  ltac:(atomic_at))).
  reflexivity.
Defined.

(** ** Lengths given as a dictionary *)

Lemma set_item_length {A : Type} (l : list A) :
  forall (i : nat) (v : A) (l' : list A),
    set_item l i v = Return l' -> List.length l' = List.length l.
Proof.
  induction l as [|x r IH]; intros i v l'; cbn [set_item]; [destruct i; discriminate|].
  destruct i as [|j].
  - intros H. injection H as <-. reflexivity.
  - destruct (set_item r j v) as [r'|e|c] eqn:E; cbn [bind]; try discriminate.
    intros H. injection H as <-. cbn [List.length]. f_equal. exact (IH j v r' E).
Qed.

Lemma fill_length (alphabet : list pyval) (d : list (pyval * length_value)) :
  forall l l', fill alphabet d l = Return l' -> List.length l' = List.length l.
Proof.
  induction d as [|[k v] r IH]; intros l l'; cbn [fill].
  - intros H. now injection H as <-.
  - destruct (rank alphabet k) as [i|e|c]; cbn [bind]; try discriminate.
    destruct (set_item l i v) as [l1|e|c] eqn:E; cbn [bind]; try discriminate.
    intros H. rewrite (IH l1 l' H). exact (set_item_length l i v l1 E).
Qed.

Lemma set_item_raises {A : Type} (l : list A) :
  forall (i : nat) (v : A) (e : exn),
    set_item l i v = Raise e -> e = IndexError "list assignment index out of range".
Proof.
  induction l as [|x r IH]; intros i v e; cbn [set_item].
  - intros H. now injection H as <-.
  - destruct i as [|j]; [discriminate|].
    destruct (set_item r j v) as [r'|e0|c] eqn:E; cbn [bind]; try discriminate.
    intros H. injection H as <-. exact (IH j v e0 E).
Qed.

Lemma fill_raises (alphabet : list pyval) (d : list (pyval * length_value)) :
  forall l e, fill alphabet d l = Raise e ->
    e = ValueError "letter not in alphabet"
    \/ e = IndexError "list assignment index out of range".
Proof.
  induction d as [|[k v] r IH]; intros l e; cbn [fill]; [discriminate|].
  unfold rank. destruct (index k alphabet) as [i|]; cbn [bind].
  - destruct (set_item l i v) as [l1|e0|c] eqn:E; cbn [bind]; try discriminate.
    + apply IH.
    + intros H. injection H as <-. right. exact (set_item_raises l i v e0 E).
  - intros H. injection H as <-. now left.
Qed.

Lemma check_lengths_raises (l : list length_value) (e : exn) :
  check_lengths l = Raise e -> e <> ValueError "bad number of lengths".
Proof.
  induction l as [|x r IH]; cbn [check_lengths]; [discriminate|].
  destruct (lv_float x) as [y|[m|m|m]].
  - destruct (nonpositive y); [|exact IH].
    intros H. injection H as <-. discriminate.
  - intros H. injection H as <-. discriminate.
  - intros H. injection H as <-. discriminate.
  - intros H. injection H as <-. discriminate.
Qed.

(** X10. With the lengths given as a dictionary the number of lengths is
    never found wrong: the call does not raise "bad number of lengths". *)
Theorem dict_lengths_never_miscounted (perm : perm_arg) (d : list (pyval * length_value)) :
  IntervalExchangeTransformation perm (LengthsDict d)
  <> Raise (ValueError "bad number of lengths").
Proof.
  unfold IntervalExchangeTransformation.
  destruct (flipped_arg perm); [discriminate|].
  destruct (as_labelled perm) as [p|e|c] eqn:Hp; cbn [bind]; [| |discriminate].
  - cbn [resolve_lengths].
    destruct (fill (alphabet_of p) d (repeat int_zero (len_method p))) as [l|e|c] eqn:Hl;
      cbn [bind]; [| |discriminate].
    + pose proof (fill_length _ _ _ _ Hl) as E. rewrite repeat_length in E.
      rewrite E, Nat.eqb_refl. cbn [negb].
      destruct (check_lengths l) as [[]|e|c] eqn:Hc; cbn [bind]; try discriminate.
      intros H. injection H as ->. now apply (check_lengths_raises l _ Hc).
    + intros H. injection H as ->.
      destruct (fill_raises _ _ _ _ Hl); discriminate.
  - intros H. injection H as ->.
    assert (Hin : In (ValueError "bad number of lengths") Permutation_errors).
    { unfold as_labelled in Hp. destruct perm as [q|v].
      - destruct (p_class q); try discriminate;
          exact (Permutation_raises_listed _ _ _ Hp).
      - exact (Permutation_raises_listed _ _ _ Hp). }
    revert Hin. vm_compute. intuition discriminate.
Qed.

Lemma dict_get_absent (d : list (pyval * length_value)) (k : pyval) :
  ~ In k (map fst d) -> dict_get d k = None.
Proof.
  induction d as [|[k0 v] r IH]; [reflexivity|].
  cbn [map fst In dict_get]. intros H.
  destruct (py_eqb k0 k) eqn:E.
  - apply py_eqb_eq in E. tauto.
  - apply IH. tauto.
Qed.

Lemma py_eqb_sym (x y : pyval) : py_eqb x y = py_eqb y x.
Proof.
  destruct (py_eqb x y) eqn:E.
  - apply py_eqb_eq in E. subst. now rewrite py_eqb_refl.
  - symmetry. apply py_eqb_neq. apply py_eqb_neq in E. congruence.
Qed.

(** Writing [v] at the rank of [k]: the entry paired with [k] is replaced. *)
Lemma set_at_index (alphabet : list pyval) :
  NoDup alphabet ->
  forall (l0 : list length_value) (k : pyval) (v : length_value),
    In k alphabet -> List.length l0 = List.length alphabet ->
    exists i l1, index k alphabet = Some i /\ set_item l0 i v = Return l1
      /\ List.length l1 = List.length alphabet
      /\ combine alphabet l1
         = map (fun xo => (fst xo, if py_eqb (fst xo) k then v else snd xo))
               (combine alphabet l0).
Proof.
  induction alphabet as [|y al IH]; intros Hn l0 k v Hk Hlen; [destruct Hk|].
  inversion Hn as [|? ? Hy Hal]; subst.
  destruct l0 as [|o l0]; [discriminate|]. cbn [List.length] in Hlen.
  injection Hlen as Hlen. cbn [index].
  destruct (py_eqb y k) eqn:E.
  - apply py_eqb_eq in E. subst y.
    exists 0, (v :: l0). cbn [set_item combine map fst snd List.length].
    rewrite py_eqb_refl. repeat split; [now rewrite Hlen|].
    f_equal. rewrite <- (map_id (combine al l0)) at 1.
    apply map_ext_in. intros [x o'] Hx. cbn [fst snd].
    assert (Hxk : py_eqb x k = false).
    { apply py_eqb_neq. intros ->. apply Hy. exact (in_combine_l _ _ _ _ Hx). }
    now rewrite Hxk.
  - assert (Hk' : In k al).
    { destruct Hk as [->|Hk]; [|exact Hk]. rewrite py_eqb_refl in E. discriminate. }
    destruct (IH Hal l0 k v Hk' Hlen) as (i & l1 & Hi & Hs & Hl1 & Hc).
    exists (S i), (o :: l1). rewrite Hi. cbn [option_map set_item].
    rewrite Hs. cbn [bind combine map fst snd List.length].
    rewrite E, Hc, Hl1. repeat split.
Qed.

Lemma fill_combine (alphabet : list pyval) (d : list (pyval * length_value)) :
  NoDup alphabet -> NoDup (map fst d) ->
  (forall k, In k (map fst d) -> In k alphabet) ->
  forall l0, List.length l0 = List.length alphabet ->
    fill alphabet d l0
    = Return (map (fun xo => setdefault (snd xo) (dict_get d (fst xo)))
                  (combine alphabet l0)).
Proof.
  intros Hal. induction d as [|[k v] r IH]; intros Hd Hsub l0 Hlen.
  - cbn [fill dict_get setdefault]. f_equal.
    rewrite <- (map_id l0) at 1.
    revert l0 Hlen. clear. induction alphabet as [|y al IH]; intros [|o l0] Hlen;
      try discriminate; [reflexivity|].
    cbn [combine map snd]. f_equal. apply IH. now injection Hlen.
  - cbn [map fst] in Hd, Hsub. inversion Hd as [|? ? Hk Hr]; subst.
    destruct (set_at_index alphabet Hal l0 k v (Hsub k (or_introl eq_refl)) Hlen)
      as (i & l1 & Hi & Hs & Hl1 & Hc).
    cbn [fill]. unfold rank. rewrite Hi. cbn [bind]. rewrite Hs. cbn [bind].
    rewrite (IH Hr (fun x Hx => Hsub x (or_intror Hx)) l1 Hl1).
    f_equal. rewrite Hc, map_map. apply map_ext. intros [x o]. cbn [fst snd dict_get].
    rewrite (py_eqb_sym k x). destruct (py_eqb x k) eqn:E; [|reflexivity].
    apply py_eqb_eq in E. subst x. now rewrite (dict_get_absent r k Hk).
Qed.

Lemma map_combine_repeat {A B C : Type} (f : A -> B -> C) (z : B) (al : list A) :
  map (fun xo => f (fst xo) (snd xo)) (combine al (repeat z (List.length al)))
  = map (fun x => f x z) al.
Proof.
  induction al as [|y al IH]; [reflexivity|].
  cbn [List.length repeat combine map fst snd]. now rewrite IH.
Qed.

Lemma dict_lengths_filled (alphabet : list pyval) (d : list (pyval * length_value)) :
  NoDup alphabet -> NoDup (map fst d) ->
  (forall k, In k (map fst d) -> In k alphabet) ->
  fill alphabet d (repeat int_zero (List.length alphabet)) = Return (laid_out alphabet d).
Proof.
  intros Hal Hd Hsub.
  rewrite (fill_combine alphabet d Hal Hd Hsub _ (repeat_length _ _)).
  unfold laid_out. f_equal.
  exact (map_combine_repeat (fun x o => setdefault o (dict_get d x)) int_zero alphabet).
Qed.

(** X11. A dictionary of lengths with distinct keys, all of them letters of
    an alphabet without repetition, is laid out along the alphabet: each
    position receives the length of its letter, zero when the dictionary has
    no entry for it, whatever the order in which the dictionary is
    iterated. *)
Theorem dict_lengths_laid_out (alphabet : list pyval) (d : list (pyval * length_value)) :
  NoDup alphabet -> NoDup (map fst d) ->
  (forall k, In k (map fst d) -> In k alphabet) ->
  fill alphabet d (repeat int_zero (List.length alphabet)) = Return (laid_out alphabet d).
Proof.
  exact (dict_lengths_filled alphabet d).
Qed.

Lemma dict_lengths_laid_out_witness :
  fill [PyStr "a"; PyStr "b"; PyStr "c"]
       [(PyStr "c", number "2" (float_pos 1)); (PyStr "a", number "1" (float_pos 0))]
       (repeat int_zero 3)
  = Return [number "1" (float_pos 0); int_zero; number "2" (float_pos 1)].
Proof.
  apply (dict_lengths_laid_out [PyStr "a"; PyStr "b"; PyStr "c"]
           [(PyStr "c", number "2" (float_pos 1)); (PyStr "a", number "1" (float_pos 0))]).
  - repeat constructor; cbn; intuition discriminate.
  - repeat constructor; cbn; intuition discriminate.
  - cbn. intuition.
Defined.

(** ** Transformations built from rows *)

Lemma distinct_In (l : list pyval) (x : pyval) : In x (distinct l) -> In x l.
Proof.
  revert x. induction l as [|y r IH]; intros x; cbn [distinct]; [tauto|].
  intros [->|H]; [now left|]. right. apply IH.
  apply filter_In in H. tauto.
Qed.

Lemma filter_none {A : Type} (f : A -> bool) (l : list A) :
  (forall x, In x l -> f x = false) -> filter f l = [].
Proof.
  induction l as [|x r IH]; [reflexivity|].
  intros H. cbn [filter]. rewrite (H x (or_introl eq_refl)).
  apply IH. intros y Hy. apply H. now right.
Qed.

(** The distinct letters of a list that begins with letters without
    repetition: these letters, then the new ones among the others. *)
Lemma distinct_app_NoDup (a0 a1 : list pyval) :
  NoDup a0 ->
  distinct (a0 ++ a1) = a0 ++ filter (fun y => negb (is_in y a0)) (distinct a1).
Proof.
  induction a0 as [|x r IH]; intros Hn.
  - cbn [app]. symmetry. now apply filter_all.
  - inversion Hn as [|? ? Hx Hr]; subst.
    cbn [app distinct]. rewrite (IH Hr), filter_app, filter_twice. f_equal. f_equal.
    + apply filter_all. intros y Hy. apply negb_true_iff, py_eqb_neq. congruence.
    + apply filter_ext. intros y. rewrite is_in_cons.
      destruct (py_eqb y x), (is_in y r); reflexivity.
Qed.

(** On rows where every letter is once in each row, the alphabet in order of
    first occurrence is the top row, and the number of letters is its
    length. *)
Lemma exchange_rows_letters (a : list pyval * list pyval) :
  (forall x, In x (fst a ++ snd a) -> count (fst a) x = 1 /\ count (snd a) x = 1) ->
  distinct (fst a ++ snd a) = fst a
  /\ List.length (set_of (fst a ++ snd a)) = List.length (fst a).
Proof.
  intros Honce.
  assert (N0 : NoDup (fst a)).
  { apply (once_NoDup _ (fst a ++ snd a)); [intros x Hx; now apply Honce|].
    intros x Hx. apply in_or_app. now left. }
  assert (N1 : NoDup (snd a)).
  { apply (once_NoDup _ (fst a ++ snd a)); [intros x Hx; now apply Honce|].
    intros x Hx. apply in_or_app. now right. }
  assert (Hsub : forall x, In x (snd a) -> In x (fst a)).
  { intros x Hx. apply count_pos_In.
    destruct (Honce x (in_or_app _ _ _ (or_intror Hx))) as [E _]. lia. }
  assert (Hsup : forall x, In x (fst a) -> In x (snd a)).
  { intros x Hx. apply count_pos_In.
    destruct (Honce x (in_or_app _ _ _ (or_introl Hx))) as [_ E]. lia. }
  split.
  - rewrite (distinct_app_NoDup _ _ N0), filter_none; [apply app_nil_r|].
    intros x Hx. apply negb_false_iff, is_in_In, Hsub, distinct_In, Hx.
  - assert (L : List.length (fst a) = List.length (snd a))
      by (apply Nat.le_antisymm; apply NoDup_incl_length; assumption).
    assert (T : List.length (fst a ++ snd a) = 2 * List.length (set_of (fst a ++ snd a))).
    { apply uniform_count_length. intros x Hx. rewrite count_app.
      destruct (Honce x Hx) as [E0 E1]. now rewrite E0, E1. }
    rewrite length_app in T. lia.
Qed.

(** A permutation built from a value for a transformation is the unflipped
    labelled permutation on the normalised rows; its top row has no repeated
    letter and is its alphabet, and its number of letters is the length of
    the top row. *)
Lemma as_labelled_value (v : pyval) (p : permutation) :
  as_labelled (PValue v) = Return p ->
  exists a, _two_lists v = Return a
    /\ p = mk_permutation LabelledPermutationIET a None []
    /\ NoDup (fst a)
    /\ List.length (fst a) = List.length (snd a)
    /\ alphabet_of p = fst a
    /\ len_method p = List.length (fst a).
Proof.
  unfold as_labelled. intros H.
  destruct (exchange_rows_NoDup [v] _ p H) as (N0 & L).
  destruct (Permutation_fresh_inv [v] _ p H)
    as (reduction & flips & a & Hr & Hf & Ha & _ & Honce & ->).
  cbn in Hr, Hf. injection Hr as <-. injection Hf as <-.
  destruct (exchange_rows_letters a Honce) as (Hal & Hlen).
  exists a. cbn [unwrap] in Ha. repeat split; assumption.
Qed.

Lemma check_lengths_zero (l : list length_value) :
  (forall x, In x l -> accepted x = true \/ x = int_zero) ->
  In int_zero l ->
  check_lengths l = Raise (ValueError "lengths must be positive").
Proof.
  induction l as [|x r IH]; intros Hall Hz; [destruct Hz|].
  destruct (Hall x (or_introl eq_refl)) as [Hx| ->]; [|reflexivity].
  cbn [check_lengths]. unfold accepted in Hx.
  destruct (lv_float x) as [y|e] eqn:E; [|discriminate].
  apply negb_true_iff in Hx. rewrite Hx. apply IH.
  - intros z Hzr. apply Hall. now right.
  - destruct Hz as [->|Hz]; [|exact Hz]. cbn in E. injection E as <-. discriminate.
Qed.

Lemma dict_get_In (d : list (pyval * length_value)) (k : pyval) (v : length_value) :
  dict_get d k = Some v -> In (k, v) d.
Proof.
  induction d as [|[k0 v0] r IH]; cbn [dict_get]; [discriminate|].
  destruct (py_eqb k0 k) eqn:E.
  - apply py_eqb_eq in E. subst k0. intros H. injection H as <-. now left.
  - intros H. right. exact (IH H).
Qed.

Lemma dict_get_present (d : list (pyval * length_value)) (k : pyval) :
  In k (map fst d) -> exists v, dict_get d k = Some v.
Proof.
  induction d as [|[k0 v0] r IH]; cbn [map fst In dict_get]; [intros []|].
  destruct (py_eqb k0 k) eqn:E; [eauto|].
  intros [->|H]; [rewrite py_eqb_refl in E; discriminate|exact (IH H)].
Qed.

(** X12. A transformation asked for with rows and a dictionary of lengths:
    when the rows give a permutation, the keys are distinct letters of the top
    row and every given length is accepted by the loop over the lengths, the
    call returns the transformation with the lengths laid out along the top
    row if every letter has a length, and raises "lengths must be positive"
    if some letter has none. *)
Theorem iet_from_dict (v : pyval) (p : permutation) (d : list (pyval * length_value)) :
  as_labelled (PValue v) = Return p ->
  NoDup (map fst d) ->
  (forall k, In k (map fst d) -> In k (fst (p_intervals p))) ->
  (forall kv, In kv d -> accepted (snd kv) = true) ->
  ((forall x, In x (fst (p_intervals p)) -> In x (map fst d)) ->
   IntervalExchangeTransformation (PValue v) (LengthsDict d)
   = Return (mk_iet p (laid_out (fst (p_intervals p)) d)))
  /\ ((exists x, In x (fst (p_intervals p)) /\ ~ In x (map fst d)) ->
      IntervalExchangeTransformation (PValue v) (LengthsDict d)
      = Raise (ValueError "lengths must be positive")).
Proof.
  intros Hp Hd Hsub Hacc.
  destruct (as_labelled_value v p Hp) as (a & _ & -> & N0 & _ & Hal & Hlen).
  cbn [p_intervals] in *.
  assert (Hl : resolve_lengths (mk_permutation LabelledPermutationIET a None [])
                 (LengthsDict d) = Return (laid_out (fst a) d)).
  { cbn [resolve_lengths]. rewrite Hal, Hlen. now apply dict_lengths_filled. }
  rewrite (iet_after_resolution (PValue v) (LengthsDict d) _ _ eq_refl Hp Hl).
  assert (E : List.length (laid_out (fst a) d)
              = len_method (mk_permutation LabelledPermutationIET a None [])).
  { rewrite Hlen. unfold laid_out. apply length_map. }
  rewrite E, Nat.eqb_refl. cbn [negb].
  assert (Hentries : forall x, In x (laid_out (fst a) d) -> accepted x = true \/ x = int_zero).
  { intros x Hx. unfold laid_out in Hx. apply in_map_iff in Hx.
    destruct Hx as (letter & <- & _).
    destruct (dict_get d letter) as [w|] eqn:G; cbn [setdefault]; [left|now right].
    exact (Hacc (letter, w) (dict_get_In d letter w G)). }
  split.
  - intros Hfull.
    assert (Hok : forallb accepted (laid_out (fst a) d) = true).
    { apply forallb_forall. intros x Hx. unfold laid_out in Hx. apply in_map_iff in Hx.
      destruct Hx as (letter & <- & Hletter).
      destruct (dict_get_present d letter (Hfull letter Hletter)) as (w & G).
      rewrite G. cbn [setdefault]. exact (Hacc (letter, w) (dict_get_In d letter w G)). }
    apply check_lengths_all_accepted in Hok. now rewrite Hok.
  - intros (x & Hx & Hn).
    rewrite (check_lengths_zero _ Hentries); [reflexivity|].
    unfold laid_out. apply in_map_iff. exists x. split; [|exact Hx].
    now rewrite (dict_get_absent d x Hn).
Qed.

Lemma iet_from_dict_witness :
  IntervalExchangeTransformation (PValue (PySeq [PyStr "a b"; PyStr "b a"]))
    (LengthsDict [(PyStr "b", number "4" (float_pos 2)); (PyStr "a", number "1" (float_pos 0))])
  = Return (mk_iet
      (mk_permutation LabelledPermutationIET ([PyStr "a"; PyStr "b"], [PyStr "b"; PyStr "a"]) None [])
      [number "1" (float_pos 0); number "4" (float_pos 2)])
  /\ IntervalExchangeTransformation (PValue (PySeq [PyStr "a b"; PyStr "b a"]))
       (LengthsDict [(PyStr "b", number "4" (float_pos 2))])
     = Raise (ValueError "lengths must be positive").
Proof.
  split.
  - apply (proj1 (iet_from_dict (PySeq [PyStr "a b"; PyStr "b a"])
             (mk_permutation LabelledPermutationIET
                ([PyStr "a"; PyStr "b"], [PyStr "b"; PyStr "a"]) None [])
             [(PyStr "b", number "4" (float_pos 2)); (PyStr "a", number "1" (float_pos 0))]
             eq_refl
             ltac:(repeat constructor; cbn; intuition discriminate)
             ltac:(cbn; intuition)
             ltac:(intros kv H; cbn in H; repeat (destruct H as [<-|H]; [reflexivity|]);
                   destruct H))).
    cbn. intuition.
  - apply (proj2 (iet_from_dict (PySeq [PyStr "a b"; PyStr "b a"])
             (mk_permutation LabelledPermutationIET
                ([PyStr "a"; PyStr "b"], [PyStr "b"; PyStr "a"]) None [])
             [(PyStr "b", number "4" (float_pos 2))]
             eq_refl
             ltac:(repeat constructor; cbn; intuition discriminate)
             ltac:(cbn; intuition)
             ltac:(intros kv H; cbn in H; repeat (destruct H as [<-|H]; [reflexivity|]);
                   destruct H))).
    exists (PyStr "a"). split; [now left|]. cbn. intuition discriminate.
Defined.

(** X13. A transformation returned for rows given as a value holds the
    unflipped labelled permutation on the normalised rows, whose rows have the
    same length, and as many lengths as the top row has letters, none of
    which is zero, negative or refused by [float]. *)
Theorem iet_from_value_invariant (v : pyval) (lengths : lengths_arg) (t : iet) :
  IntervalExchangeTransformation (PValue v) lengths = Return t ->
  p_class (iet_permutation t) = LabelledPermutationIET
  /\ _two_lists v = Return (p_intervals (iet_permutation t))
  /\ p_flips (iet_permutation t) = []
  /\ List.length (fst (p_intervals (iet_permutation t)))
     = List.length (snd (p_intervals (iet_permutation t)))
  /\ List.length (iet_lengths t) = List.length (fst (p_intervals (iet_permutation t)))
  /\ forallb accepted (iet_lengths t) = true.
Proof.
  unfold IntervalExchangeTransformation. cbn [flipped_arg].
  destruct (as_labelled (PValue v)) as [p|e|c] eqn:Hp; cbn [bind]; try discriminate.
  destruct (resolve_lengths p lengths) as [l|e|c] eqn:Hl; cbn [bind]; try discriminate.
  destruct (Nat.eqb (List.length l) (len_method p)) eqn:E; cbn [negb]; [|discriminate].
  destruct (check_lengths l) as [[]|e|c] eqn:Hc; cbn [bind]; try discriminate.
  intros H. injection H as <-. cbn [iet_permutation iet_lengths].
  destruct (as_labelled_value v p Hp) as (a & Ha & -> & _ & L & _ & Hlen).
  cbn [p_class p_intervals p_flips]. apply Nat.eqb_eq in E. rewrite Hlen in E.
  repeat split; try assumption. now apply check_lengths_all_accepted.
Qed.

Lemma iet_from_value_invariant_witness :
  List.length [number "1" (float_pos 0); number "4" (float_pos 2)]
  = List.length [PyStr "a"; PyStr "b"].
Proof.
  destruct (iet_from_value_invariant (PySeq [PyStr "a b"; PyStr "b a"])
              (LengthsSeq [number "1" (float_pos 0); number "4" (float_pos 2)])
              (mk_iet
                 (mk_permutation LabelledPermutationIET
                    ([PyStr "a"; PyStr "b"], [PyStr "b"; PyStr "a"]) None [])
                 [number "1" (float_pos 0); number "4" (float_pos 2)])
              eq_refl) as (_ & _ & _ & _ & L & _).
  exact L.
Defined.

(** ** The iterator of permutations *)

Lemma range1_length (n : nat) : List.length (range1 n) = n.
Proof. unfold range1. now rewrite length_map, length_seq. Qed.

(** X14. When the iterator factory returns and at most one of the number of
    intervals and the alphabet was given, the engine is called with a finite
    alphabet that has as many letters as there are intervals (none when the
    number given is not positive): the alphabet that was given, whose size is
    taken as the number of intervals, or else the integers from 1 to the
    number of intervals, each once.  The engine is the reduced one exactly
    when [reduced] is true. *)
Theorem iterator_alphabet_size (nintervals : option Z) (irreducible reduced : bool)
    (alphabet : option alphabet_arg) (it : iterator) :
  Permutations_iterator nintervals irreducible reduced alphabet = Return it ->
  nintervals = None \/ alphabet = None ->
  (exists letters,
     it_alphabet it = FiniteAlphabet letters
     /\ Z.of_nat (List.length letters) = Z.max 0 (it_nintervals it)
     /\ (nintervals = None -> alphabet = Some (FiniteAlphabet letters))
     /\ (alphabet = None ->
         nintervals = Some (it_nintervals it)
         /\ NoDup letters
         /\ forall x, In x letters <->
                      exists z, x = PyInt z /\ (1 <= z <= it_nintervals it)%Z))
  /\ it_engine it = (if reduced then ReducedPermutationsIET_iterator
                     else LabelledPermutationsIET_iterator)
  /\ it_irreducible it = irreducible.
Proof.
  unfold Permutations_iterator. intros H Hone.
  assert (Hdefault : forall n : Z,
            Z.of_nat (List.length (range1Z n)) = Z.max 0 n
            /\ NoDup (range1Z n)
            /\ forall x, In x (range1Z n) <-> exists z, x = PyInt z /\ (1 <= z <= n)%Z).
  { intros n. unfold range1Z. rewrite range1_length.
    split; [lia|]. split; [apply range1_NoDup|].
    intros x. rewrite range1_In. split; intros (z & -> & Hz); exists z; split;
      try reflexivity; lia. }
  destruct nintervals as [n|], alphabet as [[letters|]|]; cbn [bind fst snd] in H;
    try discriminate; try (destruct Hone; discriminate);
    destruct reduced; injection H as <-; cbn [it_alphabet it_nintervals it_engine it_irreducible];
    (split; [|split; reflexivity]).
  - exists (range1Z n). destruct (Hdefault n) as (L & N & I).
    split; [reflexivity|]. split; [exact L|]. split; [discriminate|]. intros _. auto.
  - exists (range1Z n). destruct (Hdefault n) as (L & N & I).
    split; [reflexivity|]. split; [exact L|]. split; [discriminate|]. intros _. auto.
  - exists letters. split; [reflexivity|]. split; [lia|]. split; [reflexivity|discriminate].
  - exists letters. split; [reflexivity|]. split; [lia|]. split; [reflexivity|discriminate].
Qed.

Lemma iterator_alphabet_size_witness :
  exists letters,
    it_alphabet (mk_iterator ReducedPermutationsIET_iterator 3 true
                   (FiniteAlphabet [PyInt 1; PyInt 2; PyInt 3]))
    = FiniteAlphabet letters
    /\ Z.of_nat (List.length letters) = 3%Z
    /\ In (PyInt 3) letters /\ ~ In (PyInt 0) letters.
Proof.
  destruct (iterator_alphabet_size (Some 3%Z) true true None
              (mk_iterator ReducedPermutationsIET_iterator 3 true
                 (FiniteAlphabet [PyInt 1; PyInt 2; PyInt 3]))
              eq_refl (or_intror eq_refl))
    as ((letters & H1 & H2 & _ & H3) & _).
  destruct (H3 eq_refl) as (_ & _ & I).
  exists letters. split; [exact H1|]. split; [exact H2|]. split.
  - apply I. exists 3%Z. cbn [it_nintervals]. split; [reflexivity|lia].
  - intros H0. apply I in H0. destruct H0 as (z & E & Hz). injection E as <-. lia.
Defined.

Example iterator_negative :
  Permutations_iterator (Some (-2)%Z) true false None
  = Return (mk_iterator LabelledPermutationsIET_iterator (-2) true (FiniteAlphabet [])).
Proof. reflexivity. Qed.

(** ** Rauzy diagrams *)

Lemma get_flips_defaults (kargs : kwargs) :
  get_flips (with_defaults kargs) = get_flips kargs.
Proof. unfold get_flips. destruct kargs as [r [f|] al]; reflexivity. Qed.

(** Filling in the defaults of the three keywords does not change what the
    factories do on fresh input. *)
Lemma Permutation_defaults (args : list pyval) (kargs : kwargs) :
  Permutation (ArgValues args) (with_defaults kargs) = Permutation (ArgValues args) kargs.
Proof. destruct kargs as [[[b|v]|] [f|] al]; reflexivity. Qed.

Lemma GeneralizedPermutation_defaults (args : list pyval) (kargs : kwargs) :
  GeneralizedPermutation (ArgValues args) (with_defaults kargs)
  = GeneralizedPermutation (ArgValues args) kargs.
Proof. destruct kargs as [[[b|v]|] [f|] al]; reflexivity. Qed.

Lemma unwrap_tuple (args : list pyval) :
  List.length args <> 1 -> unwrap [PySeq args] = unwrap args.
Proof. destruct args as [|x [|y r]]; cbn; [reflexivity|now intros []|reflexivity]. Qed.

Lemma GeneralizedPermutation_unwrap (l m : list pyval) (kargs : kwargs) :
  unwrap l = unwrap m ->
  GeneralizedPermutation (ArgValues l) kargs = GeneralizedPermutation (ArgValues m) kargs.
Proof. intros H. unfold GeneralizedPermutation. now rewrite H. Qed.

(** X15. With no or with several positional arguments, [RauzyDiagram] asks
    for the diagram of exactly the permutation that [GeneralizedPermutation]
    gives on the same arguments and keywords, and raises what it raises; the
    five options are handed over with [right_induction] true and the others
    false when absent. *)
Theorem RauzyDiagram_composes (args : list pyval) (kargs : kwargs) (opts : diagram_kwargs) :
  List.length args <> 1 ->
  RauzyDiagram args kargs opts
  = (p <- GeneralizedPermutation (ArgValues args) kargs ;;
     Return (mk_rauzy_diagram p
               (setdefault true (kw_right_induction opts))
               (setdefault false (kw_left_induction opts))
               (setdefault false (kw_left_right_inversion opts))
               (setdefault false (kw_top_bottom_inversion opts))
               (setdefault false (kw_symmetric opts)))).
Proof.
  intros H. unfold RauzyDiagram.
  rewrite GeneralizedPermutation_defaults.
  now rewrite (GeneralizedPermutation_unwrap [PySeq args] args kargs (unwrap_tuple args H)).
Qed.

Lemma RauzyDiagram_composes_witness :
  RauzyDiagram [PyStr "a b b"; PyStr "c c a"] no_options
    (mk_diagram_kwargs None None None None (Some true))
  = Return (mk_rauzy_diagram
              (mk_permutation LabelledPermutationLI
                 ([PyStr "a"; PyStr "b"; PyStr "b"], [PyStr "c"; PyStr "c"; PyStr "a"])
                 None [])
              true false false false true).
Proof.
  rewrite (RauzyDiagram_composes [PyStr "a b b"; PyStr "c c a"] no_options
             (mk_diagram_kwargs None None None None (Some true)));
    [reflexivity|discriminate].
Defined.

(** X16. With a single positional argument that is a string, [RauzyDiagram]
    raises "argument not accepted" once the keywords are read, whatever the
    string: the text of two rows that [GeneralizedPermutation] accepts as its
    single argument is refused. *)
Theorem RauzyDiagram_single_string (s : string) (kargs : kwargs) (opts : diagram_kwargs)
    (reduction : option bool) (flips : list pyval) :
  get_reduced None kargs = Return reduction ->
  get_flips kargs = Return flips ->
  RauzyDiagram [PyStr s] kargs opts = Raise (TypeError "argument not accepted").
Proof.
  intros Hr Hf. unfold RauzyDiagram. rewrite GeneralizedPermutation_defaults.
  unfold GeneralizedPermutation. rewrite Hr, Hf. reflexivity.
Qed.

Lemma RauzyDiagram_single_string_witness :
  RauzyDiagram [PyStr (rows_text ["a"; "b"; "b"] ["c"; "c"; "a"])] no_options
    (mk_diagram_kwargs None None None None None)
  = Raise (TypeError "argument not accepted")
  /\ GeneralizedPermutation (ArgValues [PyStr (rows_text ["a"; "b"; "b"] ["c"; "c"; "a"])])
       no_options
     = Return (mk_permutation LabelledPermutationLI
                 ([PyStr "a"; PyStr "b"; PyStr "b"], [PyStr "c"; PyStr "c"; PyStr "a"])
                 None []).
Proof.
  split; [|reflexivity].
  apply (RauzyDiagram_single_string _ no_options _ None []); reflexivity.
Defined.

(** ** Instances of the properties stated earlier *)

Lemma strip_any_order_witness :
  strip [PyStr "c"; PyStr "b"; PyStr "a"]
        ([PyStr "a"; PyStr "b"; PyStr "b"], [PyStr "c"; PyStr "c"; PyStr "a"])
  = Return ([PyStr "b"; PyStr "b"], [PyStr "c"; PyStr "c"]).
Proof.
  apply (strip_any_order
           ([PyStr "a"; PyStr "b"; PyStr "b"], [PyStr "c"; PyStr "c"; PyStr "a"])
           [PyStr "c"; PyStr "b"; PyStr "a"]).
  - intros x. cbn. intuition.
  - each_letter.
Defined.

Lemma check_lengths_first_rejected_witness :
  check_lengths ([number "0.5" (float_pos (-1))] ++
                 bad_literal "'rho'" :: [number "-2" (float_neg 1)])
  = Raise (TypeError "unable to convert 'rho' to a float").
Proof.
  apply (check_lengths_first_rejected [number "0.5" (float_pos (-1))]
           [number "-2" (float_neg 1)] (bad_literal "'rho'")); reflexivity.
Defined.

Lemma iet_built_witness :
  IntervalExchangeTransformation abc_cba
    (LengthsSeq [number "0.5" (float_pos (-1)); number "1" (float_pos 0);
                 number "2" (float_pos 1)])
  = Return (mk_iet
      (mk_permutation LabelledPermutationIET
         ([PyStr "a"; PyStr "b"; PyStr "c"], [PyStr "c"; PyStr "b"; PyStr "a"]) None [])
      [number "0.5" (float_pos (-1)); number "1" (float_pos 0); number "2" (float_pos 1)]).
Proof.
  apply (proj2 (iet_built abc_cba
                  (LengthsSeq [number "0.5" (float_pos (-1)); number "1" (float_pos 0);
                               number "2" (float_pos 1)])
                  (mk_permutation LabelledPermutationIET
                     ([PyStr "a"; PyStr "b"; PyStr "c"], [PyStr "c"; PyStr "b"; PyStr "a"])
                     None [])
                  _ eq_refl eq_refl eq_refl)).
  split; reflexivity.
Defined.
